(** * RolBot: the event roster of telegram-bot-rol.py

    A shallow embedding of the bot's store (two SQLite tables), of its
    rendering of an event and of its two mutating handlers, [create_event]
    and [on_button], followed by the properties of the roster.

    Python [str] values are lists of Unicode code points.  The SQLite
    connection is a record holding both tables in insertion (rowid) order.
    Handlers take the connection and the inbound update and give back the
    connection together with the transport calls they issued, in order.
    Store calls are modelled on their success path plus the one failure the
    source handles ([sqlite3.IntegrityError]); failures of the transport, of
    the engine or of the binding are not part of the model.  In particular
    the binding passes an integer parameter to a statement only when it
    fits SQLite's 64-bit INTEGER ([sqlite_integer]) and raises OverflowError
    otherwise, which no handler catches: what is stated about a lookup by
    id is stated for ids in that range. *)

From Stdlib Require Import List ZArith NArith Bool Lia String Ascii.
From Stdlib Require Import Permutation Sorted DecimalString.
From Stdlib Require DecimalPos.
Import ListNotations.
Local Open Scope N_scope.

(** ** Python strings *)

Module Str.

Definition char := N.
Definition str := list char.

(** An ASCII literal as a [str]. *)
Definition lit (s : string) : str :=
  List.map N_of_ascii (list_ascii_of_string s).

Definition LF : char := 0x0A.
Definition SPACE : char := 0x20.
Definition QUOT : char := 0x22.
Definition AMP : char := 0x26.
Definition APOS : char := 0x27.
Definition COLON : char := 0x3A.
Definition LT : char := 0x3C.
Definition GT : char := 0x3E.

Fixpoint eqb (a b : str) : bool :=
  match a, b with
  | [], [] => true
  | x :: a', y :: b' => N.eqb x y && eqb a' b'
  | _, _ => false
  end.

(** [bool(s)]: a string is truthy when it is not empty. *)
Definition truthy (s : str) : bool :=
  match s with [] => false | _ => true end.

(** [str.isspace] on one code point. *)
Definition isspace (c : char) : bool :=
  (0x09 <=? c) && (c <=? 0x0D)
  || (0x1C <=? c) && (c <=? 0x20)
  || (c =? 0x85) || (c =? 0xA0) || (c =? 0x1680)
  || (0x2000 <=? c) && (c <=? 0x200A)
  || (c =? 0x2028) || (c =? 0x2029) || (c =? 0x202F)
  || (c =? 0x205F) || (c =? 0x3000).

Fixpoint lstrip (s : str) : str :=
  match s with
  | c :: s' => if isspace c then lstrip s' else s
  | [] => []
  end.

Definition rstrip (s : str) : str := rev (lstrip (rev s)).

(** [s.strip()] *)
Definition strip (s : str) : str := rstrip (lstrip s).

(** [s.partition(sep)] for a one-character separator: the text before the
    first [sep], whether it was found, and the text after it. *)
Fixpoint partition (sep : char) (s : str) : str * bool * str :=
  match s with
  | [] => ([], false, [])
  | c :: s' =>
      if c =? sep then ([], true, s')
      else let '(before, found, after) := partition sep s' in
           (c :: before, found, after)
  end.

(** [sep in s] for a one-character [sep]. *)
Definition contains (sep : char) (s : str) : bool :=
  existsb (fun c => c =? sep) s.

(** [s.split(sep, 1)] when [sep] occurs in [s]: exactly two pieces. *)
Definition split1 (sep : char) (s : str) : str * str :=
  let '(before, _, after) := partition sep s in (before, after).

(** [s.replace(old, new)] for a one-character [old]. *)
Fixpoint replace (old : char) (new : str) (s : str) : str :=
  match s with
  | [] => []
  | c :: s' =>
      if c =? old then new ++ replace old new s'
      else c :: replace old new s'
  end.

(** [sep.join(parts)] for a one-character [sep]. *)
Fixpoint join (sep : char) (parts : list str) : str :=
  match parts with
  | [] => []
  | [p] => p
  | p :: rest => p ++ sep :: join sep rest
  end.

(** [str(n)] / [f"{n}"] for an integer. *)
Definition of_int (n : Z) : str :=
  lit (NilZero.string_of_int (Z.to_int n)).

(** Ordering of TEXT values under SQLite's BINARY collation: byte-wise
    comparison of the UTF-8 encodings, which orders strings exactly as the
    lexicographic order of their code points does. *)
Fixpoint compare (a b : str) : comparison :=
  match a, b with
  | [], [] => Eq
  | [], _ :: _ => Lt
  | _ :: _, [] => Gt
  | x :: a', y :: b' =>
      match N.compare x y with
      | Eq => compare a' b'
      | c => c
      end
  end.

Definition leb (a b : str) : bool :=
  match compare a b with Gt => false | _ => true end.

Definition ltb (a b : str) : bool :=
  match compare a b with Lt => true | _ => false end.

End Str.

Import Str.

(** ** html.escape *)

(** [html.escape(s)] with the default [quote=True]: five replacements in
    this order, the ampersand first. *)
Definition html_escape (s : str) : str :=
  let s := replace AMP (lit "&amp;") s in
  let s := replace LT (lit "&lt;") s in
  let s := replace GT (lit "&gt;") s in
  let s := replace QUOT (lit "&quot;") s in
  let s := replace APOS (lit "&#x27;") s in
  s.

(** ** The store: SCHEMA_SQL and the SQL statements of the source *)

Module Store.

(** A row of [events]. *)
Record event_row := mk_event {
  ev_id : Z;
  ev_chat_id : Z;
  ev_message_id : option Z;
  ev_description : str;
  ev_creator_id : Z;
  ev_created_at : str
}.

(** A row of [attendees]; [username] and [first_name] may be NULL. *)
Record attendee_row := mk_attendee {
  at_event_id : Z;
  at_user_id : Z;
  at_username : option str;
  at_first_name : option str;
  at_joined_at : str
}.

(** The database behind a connection: both tables in rowid order, newest
    row last, and the [sqlite_sequence] counter that AUTOINCREMENT keeps
    for [events]. *)
Record db := mk_db {
  events : list event_row;
  events_seq : Z;
  attendees : list attendee_row
}.

(** A fresh database after [init_db]. *)
Definition init_db : db := mk_db [] 0 [].

(** PRIMARY KEY (event_id, user_id) *)
Definition pk (r : attendee_row) : Z * Z := (at_event_id r, at_user_id r).

Definition pk_eqb (k1 k2 : Z * Z) : bool :=
  Z.eqb (fst k1) (fst k2) && Z.eqb (snd k1) (snd k2).

Inductive result :=
| Ok (con : db)
| IntegrityError.

(** INSERT INTO events (chat_id, message_id, description, creator_id,
    created_at) VALUES (?,?,?,?,?); the second component is [lastrowid]. *)
Definition insert_event (con : db) (chat_id : Z) (message_id : option Z)
    (description : str) (creator_id : Z) (created_at : str) : db * Z :=
  let new_id := (events_seq con + 1)%Z in
  (mk_db (events con ++
            [mk_event new_id chat_id message_id description creator_id created_at])
         new_id
         (attendees con),
   new_id).

(** UPDATE events SET message_id = ? WHERE id = ? *)
Definition update_message_id (con : db) (message_id : Z) (event_id : Z) : db :=
  mk_db (List.map (fun e =>
                     if Z.eqb (ev_id e) event_id
                     then mk_event (ev_id e) (ev_chat_id e) (Some message_id)
                            (ev_description e) (ev_creator_id e) (ev_created_at e)
                     else e)
                  (events con))
        (events_seq con)
        (attendees con).

(** The values of SQLite's INTEGER, and so of every id column: 64-bit
    signed.  A Python int outside this range cannot be bound as a
    parameter; [execute] raises OverflowError before the statement runs. *)
Definition INT64_MIN : Z := (- 2 ^ 63)%Z.
Definition INT64_MAX : Z := (2 ^ 63 - 1)%Z.

Definition sqlite_integer (n : Z) : bool :=
  Z.leb INT64_MIN n && Z.leb n INT64_MAX.

(** SELECT * FROM events WHERE id = ?, then [fetchone()], for a parameter
    that is a [sqlite_integer]. *)
Definition select_event (con : db) (event_id : Z) : option event_row :=
  find (fun e => Z.eqb (ev_id e) event_id) (events con).

(** INSERT INTO attendees (...) VALUES (?,?,?,?,?): the primary key rejects
    a second row for the same (event_id, user_id). *)
Definition insert_attendee (con : db) (row : attendee_row) : result :=
  if existsb (fun r => pk_eqb (pk r) (pk row)) (attendees con)
  then IntegrityError
  else Ok (mk_db (events con) (events_seq con) (attendees con ++ [row])).

(** DELETE FROM attendees WHERE event_id = ? AND user_id = ? *)
Definition delete_attendee (con : db) (event_id user_id : Z) : db :=
  mk_db (events con) (events_seq con)
        (filter (fun r => negb (pk_eqb (pk r) (event_id, user_id)))
                (attendees con)).

(** Sorting as the engine's sorter does it for ORDER BY: rows that compare
    equal on the sort key keep the order in which they were fed. *)
Fixpoint insert_sorted {A : Type} (le : A -> A -> bool) (x : A) (l : list A)
  : list A :=
  match l with
  | [] => [x]
  | y :: l' => if le x y then x :: l else y :: insert_sorted le x l'
  end.

Definition stable_sort {A : Type} (le : A -> A -> bool) (l : list A) : list A :=
  fold_right (insert_sorted le) [] l.

Definition user_id_leb (a b : attendee_row) : bool :=
  Z.leb (at_user_id a) (at_user_id b).

Definition joined_at_leb (a b : attendee_row) : bool :=
  Str.leb (at_joined_at a) (at_joined_at b).

(** The rows of one event as the engine reaches them for
    [WHERE event_id = ?].  SCHEMA_SQL declares
    [PRIMARY KEY (event_id, user_id)] on a rowid table, which gives
    [attendees] an index on that pair; SQLite answers the equality on
    [event_id] by searching this index, so the rows of the event arrive in
    ascending [user_id], whatever their insertion order. *)
Definition index_search (con : db) (event_id : Z) : list attendee_row :=
  stable_sort user_id_leb
    (filter (fun r => Z.eqb (at_event_id r) event_id) (attendees con)).

(** ORDER BY joined_at ASC *)
Definition order_by_joined_at (rows : list attendee_row) : list attendee_row :=
  stable_sort joined_at_leb rows.

(** SELECT user_id, username, first_name, joined_at FROM attendees
    WHERE event_id = ? ORDER BY joined_at ASC, then [fetchall()]. *)
Definition select_attendees (con : db) (event_id : Z) : list attendee_row :=
  order_by_joined_at (index_search con event_id).

End Store.

Import Store.

(** ** Rendering *)

Definition truthy_opt (s : option str) : bool :=
  match s with Some s => truthy s | None => false end.

(** [s or ""] *)
Definition or_empty (s : option str) : str :=
  match s with Some s => s | None => [] end.

Definition human_name (username first_name : option str) : str :=
  if truthy_opt username then lit "@" ++ or_empty username
  else if truthy_opt first_name then or_empty first_name
  else lit "(sin nombre)".

(** [enumerate(l, start)] *)
Fixpoint enumerate {A : Type} (start : Z) (l : list A) : list (Z * A) :=
  match l with
  | [] => []
  | x :: l' => (start, x) :: enumerate (start + 1) l'
  end.

Definition attendee_line (i : Z) (row : attendee_row) : str :=
  of_int i ++ lit ". "
    ++ html_escape (human_name (at_username row) (at_first_name row)).

(** The list [lines] that [render_event_text] builds from the event row and
    the fetched attendees. *)
Definition render_lines (event_row : event_row) (attendees : list attendee_row)
  : list str :=
  [ 0x1F4C5 :: lit " <b>Evento</b>" ++ [LF] ++ html_escape (ev_description event_row);
    [];
    0x1F465 :: lit " <b>Apuntados</b>:" ]
  ++ (match attendees with
      | [] => [ lit "(nadie apuntado a" ++ [0xFA] ++ lit "n)" ]
      | _ => List.map (fun '(i, row) => attendee_line i row) (enumerate 1 attendees)
      end)
  ++ [ [];
       0x1F552 :: lit " Creado: " ++ ev_created_at event_row;
       0x1F194 :: lit " Evento #" ++ of_int (ev_id event_row) ].

Definition render_event_text (event_row : event_row) (con : db) : str :=
  let attendees := select_attendees con (ev_id event_row) in
  join LF (render_lines event_row attendees).

Definition NOT_FOUND_TEXT : str := lit "(evento no encontrado)".

Definition render_event_by_id (con : db) (event_id : Z) : str :=
  match select_event con event_id with
  | None => NOT_FOUND_TEXT
  | Some ev => render_event_text ev con
  end.

(** ** The transport: inbound updates and outbound calls *)

Record user := mk_user {
  u_id : Z;
  u_username : option str;
  u_first_name : str
}.

Record message := mk_message {
  m_text : option str;
  m_chat_id : Z;
  m_from_user : user
}.

Record callback_query := mk_query {
  q_data : option str;
  q_from_user : user
}.

Record update := mk_update {
  upd_message : option message;
  upd_callback_query : option callback_query
}.

(** An inline button: its label and its [callback_data]. *)
Definition button : Type := str * str.
Definition keyboard : Type := list (list button).

Inductive parse_mode := HTML.

(** The awaited transport calls of the handlers. *)
Inductive call :=
| answer
| reply_text (text : str)
| reply_html (text : str) (reply_markup : keyboard)
| edit_message_text (text : str) (mode : option parse_mode)
    (reply_markup : option keyboard).

Definition event_keyboard (event_id : Z) : keyboard :=
  [ [ (0x2705 :: lit " Apuntarme", lit "join:" ++ of_int event_id);
      (0x274C :: lit " Borrarme", lit "leave:" ++ of_int event_id) ] ].

(** ** Handlers *)

Definition USAGE_TEXT : str :=
  lit "Formato: /partida <descripci" ++ [0xF3] ++ lit "n del evento>".

Definition GONE_TEXT : str := lit "Este evento ya no existe.".

(** [create_event] up to and including the awaited [reply_html]: the
    connection afterwards, the calls made, and the id of the event whose
    message id is still to be stored ([None] when the handler returned
    early).  [now] is the formatted clock reading. *)
Definition create_event (con : db) (upd : update) (now : str)
  : db * list call * option Z :=
  match upd_message upd with
  | None => (con, [], None)
  | Some msg =>
      let description :=
        strip (snd (partition SPACE (or_empty (m_text msg)))) in
      if negb (truthy description) then
        (con, [reply_text USAGE_TEXT], None)
      else
        let '(con', event_id) :=
          insert_event con (m_chat_id msg) None description
            (u_id (m_from_user msg)) now in
        let text := render_event_by_id con' event_id in
        (con', [reply_html text (event_keyboard event_id)], Some event_id)
  end.

(** The rest of [create_event], run once the transport has answered with
    the sent message. *)
Definition create_event_sent (con : db) (event_id sent_message_id : Z) : db :=
  update_message_id con sent_message_id event_id.

Section Handlers.

(** Python's built-in [int] on a string: the integer, or [None] for
    [ValueError].  The handler only looks at which of the two it gets. *)
Variable py_int : str -> option Z.

Definition on_button (con : db) (upd : update) (now : str) : db * list call :=
  match upd_callback_query upd with
  | None => (con, [])
  | Some query =>
      let data := or_empty (q_data query) in
      if negb (contains COLON data) then (con, [answer])
      else
        let '(action, id_str) := split1 COLON data in
        match py_int id_str with
        | None => (con, [answer])
        | Some event_id =>
            let user := q_from_user query in
            match select_event con event_id with
            | None => (con, [answer; edit_message_text GONE_TEXT None None])
            | Some ev =>
                let con' :=
                  if Str.eqb action (lit "join") then
                    match insert_attendee con
                            (mk_attendee event_id (u_id user) (u_username user)
                               (Some (u_first_name user)) now) with
                    | Ok con' => con'
                    | IntegrityError => con
                    end
                  else if Str.eqb action (lit "leave") then
                    delete_attendee con event_id (u_id user)
                  else con in
                let new_text := render_event_by_id con' event_id in
                (con', [answer;
                        edit_message_text new_text (Some HTML)
                          (Some (event_keyboard event_id))])
            end
        end
  end.

(** One atomic stretch of a handler, as the event loop interleaves them. *)
Inductive op :=
| CreateEvent (upd : update) (now : str)
| CreateEventSent (event_id sent_message_id : Z)
| Button (upd : update) (now : str).

Definition step (con : db) (o : op) : db :=
  match o with
  | CreateEvent upd now => fst (fst (create_event con upd now))
  | CreateEventSent event_id sent_message_id =>
      create_event_sent con event_id sent_message_id
  | Button upd now => fst (on_button con upd now)
  end.

Definition run (ops : list op) : db := fold_left step ops init_db.

End Handlers.

(** [int] restricted to plain ASCII decimal numerals with an optional
    minus sign, which is what the bot's own buttons carry. *)
Definition int_of_digits (s : str) : option Z :=
  let fix digits (acc : Z) (s : str) : option Z :=
    match s with
    | [] => Some acc
    | c :: s' =>
        if (0x30 <=? c) && (c <=? 0x39)
        then digits (10 * acc + Z.of_N (c - 0x30))%Z s'
        else None
    end in
  match s with
  | [] => None
  | c :: s' =>
      if c =? 0x2D then
        match s' with
        | [] => None
        | _ => option_map Z.opp (digits 0%Z s')
        end
      else digits 0%Z s
  end.

(** ** What "escaped" means *)

(** The escaped form of one character. *)
Definition escape_char (c : char) : str :=
  if c =? AMP then lit "&amp;"
  else if c =? LT then lit "&lt;"
  else if c =? GT then lit "&gt;"
  else if c =? QUOT then lit "&quot;"
  else if c =? APOS then lit "&#x27;"
  else [c].

Fixpoint starts_with (prefix s : str) : bool :=
  match prefix, s with
  | [], _ => true
  | p :: prefix', c :: s' => (p =? c) && starts_with prefix' s'
  | _ :: _, [] => false
  end.

(** No raw [<], [>], double or single quote, and every ampersand opens one
    of the five entities that [html.escape] writes. *)
Fixpoint well_escaped (s : str) : bool :=
  match s with
  | [] => true
  | c :: s' =>
      (if c =? AMP then
         starts_with (lit "amp;") s' || starts_with (lit "lt;") s'
         || starts_with (lit "gt;") s' || starts_with (lit "quot;") s'
         || starts_with (lit "#x27;") s'
       else negb ((c =? LT) || (c =? GT) || (c =? QUOT) || (c =? APOS)))
      && well_escaped s'
  end.

(** Reading the five entities back. *)
Fixpoint html_unescape (fuel : nat) (s : str) : str :=
  match fuel, s with
  | O, _ => s
  | _, [] => []
  | S fuel', c :: s' =>
      if c =? AMP then
        if starts_with (lit "amp;") s' then AMP :: html_unescape fuel' (skipn 4 s')
        else if starts_with (lit "lt;") s' then LT :: html_unescape fuel' (skipn 3 s')
        else if starts_with (lit "gt;") s' then GT :: html_unescape fuel' (skipn 3 s')
        else if starts_with (lit "quot;") s' then QUOT :: html_unescape fuel' (skipn 5 s')
        else if starts_with (lit "#x27;") s' then APOS :: html_unescape fuel' (skipn 5 s')
        else c :: html_unescape fuel' s'
      else c :: html_unescape fuel' s'
  end.

(** ** Vocabulary of the properties *)

(** The primary key holds: no two rows of [attendees] share
    (event_id, user_id). *)
Definition pk_unique (con : db) : Prop := NoDup (List.map pk (attendees con)).

(** The rows of one event, in insertion order. *)
Definition event_rows (con : db) (event_id : Z) : list attendee_row :=
  filter (fun r => Z.eqb (at_event_id r) event_id) (attendees con).

(** The rows that one user has in one event. *)
Definition entries (con : db) (event_id user_id : Z) : list attendee_row :=
  filter (fun r => pk_eqb (pk r) (event_id, user_id)) (attendees con).

Definition joined_le (a b : attendee_row) : Prop :=
  Str.leb (at_joined_at a) (at_joined_at b) = true.

(** Sorted by [le]; among rows that [le] holds equal, ordered by [R]. *)
Definition then_by {A : Type} (le : A -> A -> bool) (R : A -> A -> Prop)
    (a b : A) : Prop :=
  le b a = false \/ (le a b = true /\ le b a = true /\ R a b).

(** Earlier [joined_at] first; equal [joined_at]: smaller user id first. *)
Definition roster_lt (a b : attendee_row) : Prop :=
  Str.ltb (at_joined_at a) (at_joined_at b) = true
  \/ (at_joined_at a = at_joined_at b /\ (at_user_id a < at_user_id b)%Z).

Definition joined_at_is (t : str) (r : attendee_row) : bool :=
  Str.eqb (at_joined_at r) t.

(** Rows with the same [joined_at] are listed in the order in which they
    were inserted. *)
Definition ties_in_insertion_order (con : db) (event_id : Z) : Prop :=
  forall t,
    filter (joined_at_is t) (select_attendees con event_id)
    = filter (joined_at_is t) (event_rows con event_id).

(** The digit loop of [int_of_digits], under a name. *)
Fixpoint read_digits (acc : Z) (s : str) : option Z :=
  match s with
  | [] => Some acc
  | c :: s' =>
      if (0x30 <=? c) && (c <=? 0x39)
      then read_digits (10 * acc + Z.of_N (c - 0x30))%Z s'
      else None
  end.

(** Some row of [events] has this id. *)
Definition event_exists (con : db) (event_id : Z) : bool :=
  existsb (fun e => Z.eqb (ev_id e) event_id) (events con).

(** The ids of [events] are 1, 2, ..., in row order, and the AUTOINCREMENT
    counter stands at the last of them. *)
Definition event_ids_sequential (con : db) : Prop :=
  List.map ev_id (events con)
  = List.map Z.of_nat (seq 1 (List.length (events con)))
  /\ events_seq con = Z.of_nat (List.length (events con)).

(** Every attendee row belongs to a stored event. *)
Definition attendees_have_events (con : db) : Prop :=
  Forall (fun r => event_exists con (at_event_id r) = true) (attendees con).

(** A text that starts with a character that is not whitespace. *)
Definition starts_solid (s : str) : bool :=
  match s with
  | [] => false
  | c :: _ => negb (isspace c)
  end.

(** Not empty, and no whitespace at either end. *)
Definition stripped (s : str) : bool :=
  starts_solid s && starts_solid (rev s).

(** The columns of an event that no statement of the bot rewrites. *)
Definition event_core (e : event_row) : Z * Z * str * Z * str :=
  (ev_id e, ev_chat_id e, ev_description e, ev_creator_id e, ev_created_at e).

(** Strictly earlier [joined_at]. *)
Definition joined_lt (a b : attendee_row) : Prop :=
  Str.ltb (at_joined_at a) (at_joined_at b) = true.

(** Neither of the five characters that [html.escape] rewrites. *)
Definition plain_char (c : char) : bool :=
  negb ((c =? AMP) || (c =? LT) || (c =? GT) || (c =? QUOT) || (c =? APOS)).

(** ** Facts about strings *)

Lemma replace_app old new a b :
  replace old new (a ++ b) = replace old new a ++ replace old new b.
Proof.
  induction a as [|c a IH]; simpl; [reflexivity|].
  destruct (c =? old); rewrite IH; [now rewrite app_assoc | reflexivity].
Qed.

Lemma html_escape_cons c s :
  html_escape (c :: s) = escape_char c ++ html_escape s.
Proof.
  unfold html_escape, escape_char.
  destruct (N.eqb_spec c AMP) as [->|Ha]; [simpl; reflexivity|].
  destruct (N.eqb_spec c LT) as [->|Hl]; [simpl; reflexivity|].
  destruct (N.eqb_spec c GT) as [->|Hg]; [simpl; reflexivity|].
  destruct (N.eqb_spec c QUOT) as [->|Hq]; [simpl; reflexivity|].
  destruct (N.eqb_spec c APOS) as [->|Hp]; [simpl; reflexivity|].
  apply N.eqb_neq in Ha, Hl, Hg, Hq, Hp.
  simpl. rewrite Ha. simpl. rewrite Hl. simpl. rewrite Hg. simpl.
  rewrite Hq. simpl. rewrite Hp. reflexivity.
Qed.

Lemma html_escape_flat_map s : html_escape s = flat_map escape_char s.
Proof.
  induction s as [|c s IH]; [reflexivity|].
  rewrite html_escape_cons, IH. reflexivity.
Qed.

Lemma well_escaped_escape_char c t :
  well_escaped (escape_char c ++ t) = well_escaped t.
Proof.
  unfold escape_char.
  destruct (N.eqb_spec c AMP) as [->|Ha]; [reflexivity|].
  destruct (N.eqb_spec c LT) as [->|Hl]; [reflexivity|].
  destruct (N.eqb_spec c GT) as [->|Hg]; [reflexivity|].
  destruct (N.eqb_spec c QUOT) as [->|Hq]; [reflexivity|].
  destruct (N.eqb_spec c APOS) as [->|Hp]; [reflexivity|].
  apply N.eqb_neq in Ha, Hl, Hg, Hq, Hp.
  simpl. rewrite Ha, Hl, Hg, Hq, Hp. reflexivity.
Qed.

Lemma well_escaped_html_escape s : well_escaped (html_escape s) = true.
Proof.
  rewrite html_escape_flat_map.
  induction s as [|c s IH]; [reflexivity|].
  simpl. rewrite well_escaped_escape_char. exact IH.
Qed.

Lemma html_unescape_escape_char fuel c t :
  html_unescape (S fuel) (escape_char c ++ t) = c :: html_unescape fuel t.
Proof.
  unfold escape_char.
  destruct (N.eqb_spec c AMP) as [->|Ha]; [reflexivity|].
  destruct (N.eqb_spec c LT) as [->|Hl]; [reflexivity|].
  destruct (N.eqb_spec c GT) as [->|Hg]; [reflexivity|].
  destruct (N.eqb_spec c QUOT) as [->|Hq]; [reflexivity|].
  destruct (N.eqb_spec c APOS) as [->|Hp]; [reflexivity|].
  apply N.eqb_neq in Ha.
  simpl. rewrite Ha. reflexivity.
Qed.

Lemma html_unescape_escape s :
  html_unescape (List.length s) (html_escape s) = s.
Proof.
  rewrite html_escape_flat_map.
  induction s as [|c s IH]; [reflexivity|].
  cbn [List.length flat_map]. rewrite html_unescape_escape_char, IH. reflexivity.
Qed.

Lemma lstrip_spaces s : forallb isspace s = true -> lstrip s = [].
Proof.
  induction s as [|c s IH]; simpl; [reflexivity|].
  intros H. apply andb_true_iff in H as [Hc Hs]. rewrite Hc. auto.
Qed.

Lemma strip_spaces s : forallb isspace s = true -> strip s = [].
Proof.
  intros H. unfold strip, rstrip. rewrite (lstrip_spaces s H). reflexivity.
Qed.

Lemma partition_absent sep s :
  contains sep s = false -> partition sep s = (s, false, []).
Proof.
  unfold contains. induction s as [|c s IH]; simpl; [reflexivity|].
  intros H. apply orb_false_iff in H as [Hc Hs].
  rewrite Hc, (IH Hs). reflexivity.
Qed.

Lemma partition_first sep before after :
  contains sep before = false ->
  partition sep (before ++ sep :: after) = (before, true, after).
Proof.
  unfold contains. induction before as [|c s IH]; simpl.
  - intros _. rewrite N.eqb_refl. reflexivity.
  - intros H. apply orb_false_iff in H as [Hc Hs].
    rewrite Hc, (IH Hs). reflexivity.
Qed.

Lemma contains_app_sep sep before after :
  contains sep (before ++ sep :: after) = true.
Proof.
  unfold contains. rewrite existsb_app. simpl.
  rewrite N.eqb_refl, orb_true_r. reflexivity.
Qed.

Lemma split1_first sep before after :
  contains sep before = false ->
  split1 sep (before ++ sep :: after) = (before, after).
Proof.
  intros H. unfold split1. rewrite (partition_first _ _ _ H). reflexivity.
Qed.

Lemma str_eqb_eq a b : Str.eqb a b = true <-> a = b.
Proof.
  revert b. induction a as [|x a IH]; destruct b as [|y b]; simpl;
    try (split; [discriminate | congruence]); try tauto.
  rewrite andb_true_iff, N.eqb_eq, IH. split.
  - intros [-> ->]. reflexivity.
  - intros E. inversion E. auto.
Qed.

(** *** The collation is a total order *)

Lemma compare_refl a : Str.compare a a = Eq.
Proof.
  induction a as [|x a IH]; simpl; [reflexivity|].
  rewrite N.compare_refl. exact IH.
Qed.

Lemma compare_eq a b : Str.compare a b = Eq -> a = b.
Proof.
  revert b. induction a as [|x a IH]; destruct b as [|y b]; simpl;
    try discriminate; [reflexivity|].
  destruct (N.compare_spec x y) as [->|H|H]; try discriminate.
  intros E. rewrite (IH _ E). reflexivity.
Qed.

Lemma compare_antisym a b : Str.compare b a = CompOpp (Str.compare a b).
Proof.
  revert b. induction a as [|x a IH]; destruct b as [|y b]; simpl;
    try reflexivity.
  rewrite (N.compare_antisym x y).
  destruct (N.compare x y); simpl; auto.
Qed.

Lemma compare_lt_trans a b c :
  Str.compare a b = Lt -> Str.compare b c = Lt -> Str.compare a c = Lt.
Proof.
  revert b c. induction a as [|x a IH]; intros [|y b] [|z c]; simpl;
    try discriminate; try reflexivity.
  destruct (x ?= y) eqn:Exy; try discriminate;
    destruct (y ?= z) eqn:Eyz; try discriminate; intros H1 H2.
  - apply N.compare_eq_iff in Exy, Eyz. subst.
    rewrite N.compare_refl. eauto.
  - apply N.compare_eq_iff in Exy. subst. rewrite Eyz. reflexivity.
  - apply N.compare_eq_iff in Eyz. subst. rewrite Exy. reflexivity.
  - apply N.compare_lt_iff in Exy, Eyz.
    pose proof (N.lt_trans _ _ _ Exy Eyz) as H.
    apply N.compare_lt_iff in H. rewrite H. reflexivity.
Qed.

Lemma leb_refl a : Str.leb a a = true.
Proof. unfold Str.leb. rewrite compare_refl. reflexivity. Qed.

Lemma leb_total a b : Str.leb a b = true \/ Str.leb b a = true.
Proof.
  unfold Str.leb. rewrite (compare_antisym a b).
  destruct (Str.compare a b); simpl; auto.
Qed.

Lemma leb_trans a b c :
  Str.leb a b = true -> Str.leb b c = true -> Str.leb a c = true.
Proof.
  unfold Str.leb.
  destruct (Str.compare a b) eqn:Eab; try discriminate;
    destruct (Str.compare b c) eqn:Ebc; try discriminate; intros _ _.
  - apply compare_eq in Eab, Ebc. subst. rewrite compare_refl. reflexivity.
  - apply compare_eq in Eab. subst. rewrite Ebc. reflexivity.
  - apply compare_eq in Ebc. subst. rewrite Eab. reflexivity.
  - rewrite (compare_lt_trans _ _ _ Eab Ebc). reflexivity.
Qed.

Lemma leb_antisym a b :
  Str.leb a b = true -> Str.leb b a = true -> a = b.
Proof.
  unfold Str.leb. rewrite (compare_antisym a b).
  destruct (Str.compare a b) eqn:E; simpl; try discriminate.
  intros _ _. apply compare_eq. exact E.
Qed.

Lemma leb_false_ltb a b : Str.leb a b = false -> Str.ltb b a = true.
Proof.
  unfold Str.leb, Str.ltb. rewrite (compare_antisym a b).
  destruct (Str.compare a b); simpl; congruence.
Qed.

(** ** Facts about sorting *)

Lemma StronglySorted_weaken {A : Type} (R R' : A -> A -> Prop) l :
  (forall a b, In a l -> In b l -> R a b -> R' a b) ->
  StronglySorted R l -> StronglySorted R' l.
Proof.
  induction l as [|x l IH]; intros Himp Hs; [constructor|].
  inversion Hs as [|? ? Hl Hx]; subst. constructor.
  - apply IH; [|exact Hl]. intros a b Ha Hb. apply Himp; now right.
  - rewrite Forall_forall in *. intros y Hy.
    apply Himp; [now left | now right | auto].
Qed.

Lemma StronglySorted_middle {A : Type} (R : A -> A -> Prop) l1 x l2 :
  StronglySorted R (l1 ++ x :: l2) ->
  Forall (fun y => R y x) l1 /\ Forall (R x) l2.
Proof.
  induction l1 as [|y l1 IH]; simpl; intros Hs;
    inversion Hs as [|? ? Hl Hx]; subst.
  - split; [constructor | exact Hx].
  - destruct (IH Hl) as [H1 H2]. split; [|exact H2].
    constructor; [|exact H1].
    rewrite Forall_forall in Hx. apply Hx, in_elt.
Qed.

Lemma StronglySorted_NoDup_strict {A B : Type} (f : A -> B)
    (R R' : A -> A -> Prop) l :
  (forall a b, R a b -> f a <> f b -> R' a b) ->
  NoDup (List.map f l) -> StronglySorted R l -> StronglySorted R' l.
Proof.
  intros Himp. induction l as [|x l IH]; intros Hnd Hs; [constructor|].
  simpl in Hnd. inversion Hnd as [|? ? Hnotin Hnd']; subst.
  inversion Hs as [|? ? Hl Hx]; subst. constructor; [auto|].
  rewrite Forall_forall in *. intros y Hy.
  apply Himp; [auto|]. intros E. apply Hnotin. rewrite E.
  now apply in_map.
Qed.

(** A sorted list is determined by its elements when the order is strict. *)
Lemma StronglySorted_perm_unique {A : Type} (R : A -> A -> Prop) :
  (forall a, ~ R a a) -> (forall a b, R a b -> R b a -> False) ->
  forall l l', StronglySorted R l -> StronglySorted R l' ->
               Permutation l l' -> l = l'.
Proof.
  intros Hirr Hasym. induction l as [|x l IH]; intros l' Hs Hs' Hp.
  - apply Permutation_nil in Hp. now subst.
  - destruct l' as [|y l'];
      [apply Permutation_sym, Permutation_nil in Hp; discriminate|].
    inversion Hs as [|? ? Hl Hx]; subst.
    inversion Hs' as [|? ? Hl' Hy]; subst.
    rewrite Forall_forall in Hx, Hy.
    assert (E : x = y).
    { assert (Hin : In x (y :: l'))
        by (eapply Permutation_in; [exact Hp | now left]).
      assert (Hin' : In y (x :: l))
        by (eapply Permutation_in; [apply Permutation_sym; exact Hp | now left]).
      destruct Hin as [E|Hin]; [now subst|].
      destruct Hin' as [E|Hin']; [now subst|].
      exfalso. exact (Hasym _ _ (Hx _ Hin') (Hy _ Hin)). }
    subst y. f_equal. apply IH; auto.
    eapply Permutation_cons_inv; exact Hp.
Qed.

Section StableSort.

Context {A : Type} (le : A -> A -> bool).
Hypothesis le_total : forall a b, le a b = true \/ le b a = true.
Hypothesis le_trans :
  forall a b c, le a b = true -> le b c = true -> le a c = true.

Lemma insert_sorted_perm x l : Permutation (x :: l) (insert_sorted le x l).
Proof.
  induction l as [|y l IH]; simpl; [reflexivity|].
  destruct (le x y); [reflexivity|].
  rewrite perm_swap. now apply perm_skip.
Qed.

Lemma stable_sort_perm l : Permutation l (stable_sort le l).
Proof.
  induction l as [|x l IH]; simpl; [constructor|].
  rewrite <- insert_sorted_perm. now apply perm_skip.
Qed.

Variable R : A -> A -> Prop.

Lemma then_by_le a b : then_by le R a b -> le a b = true.
Proof.
  intros [H|[H _]]; [|exact H].
  destruct (le_total a b) as [E|E]; [exact E | congruence].
Qed.

Lemma insert_sorted_then_by x l :
  StronglySorted (then_by le R) l -> Forall (R x) l ->
  StronglySorted (then_by le R) (insert_sorted le x l).
Proof.
  induction l as [|y l IH]; intros Hs Hx; simpl.
  - repeat constructor.
  - inversion Hs as [|? ? Hl Hy]; subst.
    destruct (le x y) eqn:E.
    + constructor; [exact Hs|].
      rewrite Forall_forall in *. intros z Hz.
      assert (Hxz : le x z = true).
      { destruct Hz as [<-|Hz]; [exact E|].
        eapply le_trans; [exact E|]. apply then_by_le. auto. }
      unfold then_by. destruct (le z x) eqn:Ezx; [right | now left].
      repeat split; auto.
    + constructor.
      * apply IH; [exact Hl|]. now inversion Hx.
      * eapply Permutation_Forall; [apply insert_sorted_perm|].
        constructor; [now left | exact Hy].
Qed.

Lemma stable_sort_then_by l :
  StronglySorted R l -> StronglySorted (then_by le R) (stable_sort le l).
Proof.
  induction l as [|x l IH]; intros Hs; simpl; [constructor|].
  inversion Hs as [|? ? Hl Hx]; subst.
  apply insert_sorted_then_by; [auto|].
  eapply Permutation_Forall; [apply stable_sort_perm | exact Hx].
Qed.

End StableSort.

Lemma stable_sort_sorted {A : Type} (le : A -> A -> bool) l :
  (forall a b, le a b = true \/ le b a = true) ->
  (forall a b c, le a b = true -> le b c = true -> le a c = true) ->
  StronglySorted (fun a b => le a b = true) (stable_sort le l).
Proof.
  intros le_total le_trans.
  assert (H : StronglySorted (fun _ _ => True) l).
  { induction l; constructor; auto. rewrite Forall_forall. auto. }
  apply (stable_sort_then_by le le_total le_trans) in H. revert H.
  apply StronglySorted_weaken. intros a b _ _.
  apply then_by_le. exact le_total.
Qed.

(** ** Facts about the store *)

Lemma user_id_leb_total a b : user_id_leb a b = true \/ user_id_leb b a = true.
Proof. unfold user_id_leb. rewrite !Z.leb_le. lia. Qed.

Lemma user_id_leb_trans a b c :
  user_id_leb a b = true -> user_id_leb b c = true -> user_id_leb a c = true.
Proof. unfold user_id_leb. rewrite !Z.leb_le. lia. Qed.

Lemma joined_at_leb_total a b :
  joined_at_leb a b = true \/ joined_at_leb b a = true.
Proof. apply leb_total. Qed.

Lemma joined_at_leb_trans a b c :
  joined_at_leb a b = true -> joined_at_leb b c = true ->
  joined_at_leb a c = true.
Proof. apply leb_trans. Qed.

Lemma pk_eqb_eq k1 k2 : pk_eqb k1 k2 = true <-> k1 = k2.
Proof.
  destruct k1 as [a b], k2 as [c d]. unfold pk_eqb. simpl.
  rewrite andb_true_iff, !Z.eqb_eq. split; [intros [-> ->] | intros E; inversion E]; auto.
Qed.

Lemma index_search_perm con event_id :
  Permutation (event_rows con event_id) (index_search con event_id).
Proof. apply stable_sort_perm. Qed.

Lemma select_attendees_perm con event_id :
  Permutation (event_rows con event_id) (select_attendees con event_id).
Proof.
  unfold select_attendees, order_by_joined_at.
  rewrite <- stable_sort_perm. apply index_search_perm.
Qed.

Lemma select_attendees_sorted con event_id :
  StronglySorted joined_le (select_attendees con event_id).
Proof.
  unfold select_attendees, order_by_joined_at.
  apply (stable_sort_sorted joined_at_leb).
  - apply joined_at_leb_total.
  - apply joined_at_leb_trans.
Qed.

Lemma NoDup_map_coarser {A B C : Type} (f : A -> B) (g : A -> C) l :
  (forall a b, In a l -> In b l -> g a = g b -> f a = f b) ->
  NoDup (List.map f l) -> NoDup (List.map g l).
Proof.
  induction l as [|x l IH]; simpl; intros Hfg Hnd; [constructor|].
  inversion Hnd as [|? ? Hnotin Hnd']; subst. constructor.
  - intros Hin. apply in_map_iff in Hin as [y [E Hy]].
    apply Hnotin. rewrite <- (Hfg y x); auto. now apply in_map.
  - apply IH; auto.
Qed.

Lemma NoDup_map_filter {A B : Type} (f : A -> B) (p : A -> bool) l :
  NoDup (List.map f l) -> NoDup (List.map f (filter p l)).
Proof.
  induction l as [|x l IH]; simpl; intros Hnd; [constructor|].
  inversion Hnd as [|? ? Hnotin Hnd']; subst.
  destruct (p x); simpl; [|auto]. constructor; [|auto].
  intros Hin. apply Hnotin.
  apply in_map_iff in Hin as [y [E Hy]]. apply filter_In in Hy as [Hy _].
  rewrite <- E. now apply in_map.
Qed.

Lemma event_rows_user_ids_NoDup con event_id :
  pk_unique con -> NoDup (List.map at_user_id (event_rows con event_id)).
Proof.
  intros Hpk. apply (NoDup_map_coarser pk).
  - intros a b Ha Hb E. unfold event_rows in Ha, Hb.
    apply filter_In in Ha as [_ Ha]. apply filter_In in Hb as [_ Hb].
    apply Z.eqb_eq in Ha, Hb. unfold pk. congruence.
  - apply NoDup_map_filter. exact Hpk.
Qed.

Lemma select_attendees_user_ids_NoDup con event_id :
  pk_unique con -> NoDup (List.map at_user_id (select_attendees con event_id)).
Proof.
  intros Hpk. eapply Permutation_NoDup.
  - apply Permutation_map, select_attendees_perm.
  - now apply event_rows_user_ids_NoDup.
Qed.

Lemma index_search_sorted con event_id :
  pk_unique con ->
  StronglySorted (fun a b => (at_user_id a < at_user_id b)%Z)
    (index_search con event_id).
Proof.
  intros Hpk.
  apply (StronglySorted_NoDup_strict at_user_id
           (then_by user_id_leb (fun _ _ => True))).
  - intros a b [H|[H1 [H2 _]]] Hne; unfold user_id_leb in *.
    + apply Z.leb_gt in H. lia.
    + apply Z.leb_le in H1, H2. lia.
  - eapply Permutation_NoDup.
    + apply Permutation_map, index_search_perm.
    + now apply event_rows_user_ids_NoDup.
  - apply (stable_sort_then_by user_id_leb).
    + apply user_id_leb_total.
    + apply user_id_leb_trans.
    + induction (filter _ _); constructor; auto.
      rewrite Forall_forall. auto.
Qed.

Lemma select_attendees_roster_lt con event_id :
  pk_unique con -> StronglySorted roster_lt (select_attendees con event_id).
Proof.
  intros Hpk.
  apply (StronglySorted_weaken
           (then_by joined_at_leb
              (fun a b => (at_user_id a < at_user_id b)%Z))).
  - intros a b _ _ [H|[H1 [H2 Hlt]]]; unfold joined_at_leb in *.
    + left. now apply leb_false_ltb.
    + right. split; [now apply leb_antisym | exact Hlt].
  - apply (stable_sort_then_by joined_at_leb).
    + apply joined_at_leb_total.
    + apply joined_at_leb_trans.
    + now apply index_search_sorted.
Qed.

Lemma select_event_none con event_id :
  (forall e, In e (events con) -> ev_id e <> event_id) ->
  select_event con event_id = None.
Proof.
  intros H. unfold select_event.
  destruct (find _ _) as [e|] eqn:E; [|reflexivity].
  apply find_some in E as [Hin He]. apply Z.eqb_eq in He.
  now destruct (H e Hin).
Qed.

Lemma select_event_some con event_id ev :
  select_event con event_id = Some ev ->
  In ev (events con) /\ ev_id ev = event_id.
Proof.
  unfold select_event. intros E. apply find_some in E as [Hin He].
  now apply Z.eqb_eq in He.
Qed.

Lemma filter_none {A : Type} (p : A -> bool) l :
  (forall x, In x l -> p x = false) -> filter p l = [].
Proof.
  induction l as [|x l IH]; simpl; intros H; [reflexivity|].
  rewrite (H x (or_introl eq_refl)). apply IH. auto.
Qed.

Lemma entries_at_most_one con event_id user_id :
  pk_unique con -> (List.length (entries con event_id user_id) <= 1)%nat.
Proof.
  unfold pk_unique, entries.
  induction (attendees con) as [|x l IH]; simpl; intros Hnd; [lia|].
  inversion Hnd as [|? ? Hnotin Hnd']; subst.
  destruct (pk_eqb (pk x) (event_id, user_id)) eqn:E; [|auto].
  apply pk_eqb_eq in E. rewrite filter_none; [simpl; lia|].
  intros y Hy. destruct (pk_eqb (pk y) (event_id, user_id)) eqn:E'; [|reflexivity].
  apply pk_eqb_eq in E'. exfalso. apply Hnotin. rewrite E, <- E'.
  now apply in_map.
Qed.

Lemma existsb_pk_entries con event_id user_id :
  existsb (fun r => pk_eqb (pk r) (event_id, user_id)) (attendees con) = true ->
  (1 <= List.length (entries con event_id user_id))%nat.
Proof.
  unfold entries. intros H. apply existsb_exists in H as [r [Hin Hr]].
  assert (Hf : In r (filter (fun r => pk_eqb (pk r) (event_id, user_id))
                       (attendees con)))
    by (apply filter_In; auto).
  destruct (filter _ _); [destruct Hf | simpl; lia].
Qed.

Lemma existsb_pk_none con event_id user_id :
  existsb (fun r => pk_eqb (pk r) (event_id, user_id)) (attendees con) = false ->
  entries con event_id user_id = [].
Proof.
  unfold entries. intros H. apply filter_none. intros x Hx.
  destruct (pk_eqb (pk x) (event_id, user_id)) eqn:E; [|reflexivity].
  rewrite <- H. symmetry. apply existsb_exists. eauto.
Qed.

(** *** The primary key survives every statement *)

Lemma insert_attendee_pk_unique con row con' :
  pk_unique con -> insert_attendee con row = Ok con' -> pk_unique con'.
Proof.
  unfold insert_attendee, pk_unique. intros Hnd.
  destruct (existsb _ _) eqn:E; [discriminate|].
  intros H. inversion H; subst; clear H. simpl.
  rewrite map_app. simpl.
  apply Permutation_NoDup with (l := pk row :: List.map pk (attendees con)).
  - apply Permutation_cons_append.
  - constructor; [|exact Hnd]. intros Hin.
    apply in_map_iff in Hin as [r [Hr Hin]].
    assert (Ht : existsb (fun r => pk_eqb (pk r) (pk row)) (attendees con) = true)
      by (apply existsb_exists; exists r; split; [auto | now apply pk_eqb_eq]).
    congruence.
Qed.

Lemma delete_attendee_pk_unique con event_id user_id :
  pk_unique con -> pk_unique (delete_attendee con event_id user_id).
Proof. unfold pk_unique. simpl. apply NoDup_map_filter. Qed.

Lemma create_event_attendees con upd now :
  attendees (fst (fst (create_event con upd now))) = attendees con.
Proof.
  unfold create_event. destruct (upd_message upd) as [msg|]; [|reflexivity].
  destruct (negb _); reflexivity.
Qed.

Lemma on_button_pk_unique py_int con upd now :
  pk_unique con -> pk_unique (fst (on_button py_int con upd now)).
Proof.
  intros Hpk. unfold on_button.
  destruct (upd_callback_query upd) as [query|]; [|exact Hpk].
  destruct (negb _); [exact Hpk|].
  destruct (split1 _ _) as [action id_str].
  destruct (py_int id_str) as [event_id|]; [|exact Hpk].
  destruct (select_event con event_id) as [ev|]; [|exact Hpk].
  simpl. destruct (Str.eqb action (lit "join")).
  - destruct (insert_attendee con _) as [con'|] eqn:E; [|exact Hpk].
    eapply insert_attendee_pk_unique; eauto.
  - destruct (Str.eqb action (lit "leave")); [|exact Hpk].
    now apply delete_attendee_pk_unique.
Qed.

Lemma step_pk_unique py_int con o :
  pk_unique con -> pk_unique (step py_int con o).
Proof.
  intros Hpk. destruct o as [upd now|event_id mid|upd now]; simpl.
  - unfold pk_unique. rewrite create_event_attendees. exact Hpk.
  - exact Hpk.
  - now apply on_button_pk_unique.
Qed.

Lemma run_pk_unique py_int ops : pk_unique (run py_int ops).
Proof.
  unfold run. assert (H : pk_unique init_db) by constructor.
  revert H. generalize init_db.
  induction ops as [|o ops IH]; simpl; intros con H; [exact H|].
  apply IH. now apply step_pk_unique.
Qed.

(** *** The handler on a well-formed payload *)

Lemma on_button_parsed py_int con upd now query action id_str event_id :
  upd_callback_query upd = Some query ->
  q_data query = Some (action ++ COLON :: id_str) ->
  contains COLON action = false ->
  py_int id_str = Some event_id ->
  on_button py_int con upd now =
  match select_event con event_id with
  | None => (con, [answer; edit_message_text GONE_TEXT None None])
  | Some ev =>
      let con' :=
        if Str.eqb action (lit "join") then
          match insert_attendee con
                  (mk_attendee event_id (u_id (q_from_user query))
                     (u_username (q_from_user query))
                     (Some (u_first_name (q_from_user query))) now) with
          | Ok con' => con'
          | IntegrityError => con
          end
        else if Str.eqb action (lit "leave") then
          delete_attendee con event_id (u_id (q_from_user query))
        else con in
      (con', [answer;
              edit_message_text (render_event_by_id con' event_id) (Some HTML)
                (Some (event_keyboard event_id))])
  end.
Proof.
  intros Hq Hd Hc Hi. unfold on_button. rewrite Hq, Hd. simpl or_empty.
  rewrite contains_app_sep. simpl negb. cbv iota.
  rewrite (split1_first _ _ _ Hc), Hi. reflexivity.
Qed.

Lemma render_event_text_not_sentinel ev con :
  render_event_text ev con <> NOT_FOUND_TEXT.
Proof.
  unfold render_event_text, render_lines. cbn [app join]. discriminate.
Qed.

Lemma render_event_by_id_found con event_id ev :
  select_event con event_id = Some ev ->
  render_event_by_id con event_id = render_event_text ev con.
Proof. unfold render_event_by_id. now intros ->. Qed.

(** * The roster's properties *)

(** ** Uniqueness of attendees *)

(** C1. Whatever sequence of create-event and button updates the bot
    processes from a fresh database, no event ends up with two attendee
    rows for one user: each (event_id, user_id) pair has at most one row,
    the keys of the table are pairwise distinct, and the fetched roster of
    an event names each user once. *)
Theorem attendees_unique_per_user py_int ops event_id user_id :
  (List.length (entries (run py_int ops) event_id user_id) <= 1)%nat
  /\ NoDup (List.map pk (attendees (run py_int ops)))
  /\ NoDup (List.map at_user_id (select_attendees (run py_int ops) event_id)).
Proof.
  pose proof (run_pk_unique py_int ops) as Hpk. repeat split.
  - now apply entries_at_most_one.
  - exact Hpk.
  - now apply select_attendees_user_ids_NoDup.
Qed.

(** ** Rejected create requests *)

(** C4. A /partida message whose description is missing, empty or made of
    whitespace only is answered with the usage text, and the database is
    returned as it was: no event is stored. *)
Theorem create_event_rejects_blank con upd msg now cmd d :
  upd_message upd = Some msg ->
  contains SPACE cmd = false ->
  forallb isspace d = true ->
  m_text msg = None \/ m_text msg = Some cmd
    \/ m_text msg = Some (cmd ++ SPACE :: d) ->
  create_event con upd now = (con, [reply_text USAGE_TEXT], None).
Proof.
  intros Hm Hcmd Hd Htext. unfold create_event. rewrite Hm.
  assert (E : strip (snd (partition SPACE (or_empty (m_text msg)))) = []).
  { destruct Htext as [->|[->| ->]]; simpl or_empty.
    - reflexivity.
    - rewrite (partition_absent _ _ Hcmd). reflexivity.
    - rewrite (partition_first _ _ _ Hcmd). simpl snd.
      now apply strip_spaces. }
  rewrite E. reflexivity.
Qed.

Lemma create_event_rejects_blank_witness :
  let msg := mk_message (Some (lit "/partida  ")) 7
               (mk_user 5 None (lit "Ana")) in
  create_event init_db (mk_update (Some msg) None) (lit "2025-01-01 10:00")
  = (init_db, [reply_text USAGE_TEXT], None).
Proof.
  intros msg.
  apply (create_event_rejects_blank init_db (mk_update (Some msg) None) msg
           (lit "2025-01-01 10:00") (lit "/partida") (lit " ")).
  - reflexivity.
  - reflexivity.
  - reflexivity.
  - right. right. reflexivity.
Defined.

(** ** Buttons that do nothing *)

(** C10. A callback whose payload has no colon, or whose text after the
    first colon is not an integer for [int], only gets its query answered:
    the database is returned unchanged and no message is edited. *)
Theorem on_button_ignores_malformed_payload py_int con upd now query :
  upd_callback_query upd = Some query ->
  contains COLON (or_empty (q_data query)) = false
  \/ (exists before after,
        or_empty (q_data query) = before ++ COLON :: after
        /\ contains COLON before = false
        /\ py_int after = None) ->
  on_button py_int con upd now = (con, [answer]).
Proof.
  intros Hq H. unfold on_button. rewrite Hq.
  destruct H as [H|[before [after [E [Hb Hi]]]]].
  - rewrite H. reflexivity.
  - rewrite E, contains_app_sep. simpl negb. cbv iota.
    rewrite (split1_first _ _ _ Hb), Hi. reflexivity.
Qed.

Lemma on_button_ignores_malformed_payload_witness :
  let con := fst (fst (create_event init_db
                         (mk_update
                            (Some (mk_message (Some (lit "/partida Mesa 1")) 7
                                     (mk_user 5 None (lit "Ana")))) None)
                         (lit "2025-01-01 10:00"))) in
  let upd := mk_update None
               (Some (mk_query (Some (lit "join:uno"))
                        (mk_user 5 None (lit "Ana")))) in
  on_button int_of_digits con upd (lit "2025-01-01 10:01") = (con, [answer]).
Proof.
  intros con upd.
  apply (on_button_ignores_malformed_payload int_of_digits con upd
           (lit "2025-01-01 10:01")
           (mk_query (Some (lit "join:uno")) (mk_user 5 None (lit "Ana")))).
  - reflexivity.
  - right. exists (lit "join"), (lit "uno"). repeat split; reflexivity.
Defined.

(** ** Events that are not there *)

(** C8. A join or leave button (or any other action word) that names an
    event id of the store's integer range with no row in [events] makes the
    handler replace the message by the "no longer exists" notice and stop:
    nothing else is sent and the database, attendees included, is returned
    unchanged. *)
Theorem on_button_event_not_found
    py_int con upd now query action id_str event_id :
  upd_callback_query upd = Some query ->
  q_data query = Some (action ++ COLON :: id_str) ->
  contains COLON action = false ->
  py_int id_str = Some event_id ->
  sqlite_integer event_id = true ->
  (forall e, In e (events con) -> ev_id e <> event_id) ->
  on_button py_int con upd now
  = (con, [answer; edit_message_text GONE_TEXT None None]).
Proof.
  intros Hq Hd Hc Hi _ Habsent.
  rewrite (on_button_parsed _ _ _ _ _ _ _ _ Hq Hd Hc Hi).
  rewrite (select_event_none _ _ Habsent). reflexivity.
Qed.

Lemma on_button_event_not_found_witness :
  let ana := mk_user 5 None (lit "Ana") in
  let upd := mk_update None (Some (mk_query (Some (lit "leave:42")) ana)) in
  on_button int_of_digits init_db upd (lit "2025-01-01 10:01")
  = (init_db, [answer; edit_message_text GONE_TEXT None None]).
Proof.
  intros ana upd.
  apply (on_button_event_not_found int_of_digits init_db upd
           (lit "2025-01-01 10:01") (mk_query (Some (lit "leave:42")) ana)
           (lit "leave") (lit "42") 42%Z).
  - reflexivity.
  - reflexivity.
  - reflexivity.
  - reflexivity.
  - reflexivity.
  - intros e [].
Defined.

(** C9. [render_event_by_id] only reads the database.  For an id of the
    store's integer range: when [events] has a row with the id it returns
    that event's rendered text, which is never the not-found text; when it
    has none it returns the not-found text. *)
Theorem render_event_by_id_outcome con event_id :
  sqlite_integer event_id = true ->
  if existsb (fun e => Z.eqb (ev_id e) event_id) (events con)
  then exists ev,
         In ev (events con) /\ ev_id ev = event_id
         /\ render_event_by_id con event_id = render_event_text ev con
         /\ render_event_by_id con event_id <> NOT_FOUND_TEXT
  else render_event_by_id con event_id = NOT_FOUND_TEXT.
Proof.
  intros _. unfold render_event_by_id.
  destruct (existsb _ _) eqn:E.
  - apply existsb_exists in E as [e [Hin He]].
    destruct (select_event con event_id) as [ev|] eqn:Es.
    + destruct (select_event_some _ _ _ Es) as [Hev Hid].
      exists ev. repeat split; auto. apply render_event_text_not_sentinel.
    + unfold select_event in Es.
      apply (find_none _ _ Es) in Hin. congruence.
  - rewrite select_event_none; [reflexivity|].
    intros e Hin Hid.
    assert (Ht : existsb (fun e => Z.eqb (ev_id e) event_id) (events con) = true)
      by (apply existsb_exists; exists e; split; [auto | now apply Z.eqb_eq]).
    congruence.
Qed.

Lemma render_event_by_id_outcome_witness :
  let ana := mk_user 5 None (lit "Ana") in
  let con :=
    fst (fst (create_event init_db
                (mk_update
                   (Some (mk_message (Some (lit "/partida Mesa 1")) 7 ana))
                   None)
                (lit "2025-01-01 10:00"))) in
  render_event_by_id con 2 = NOT_FOUND_TEXT
  /\ exists ev,
       In ev (events con) /\ ev_id ev = 1%Z
       /\ render_event_by_id con 1 = render_event_text ev con
       /\ render_event_by_id con 1 <> NOT_FOUND_TEXT.
Proof.
  intros ana con. split.
  - exact (render_event_by_id_outcome con 2%Z eq_refl).
  - exact (render_event_by_id_outcome con 1%Z eq_refl).
Defined.

(** ** The rendered roster *)

Lemma nth_error_enumerate {A B : Type} (f : Z * A -> B) l :
  forall start k row,
    nth_error l k = Some row ->
    nth_error (List.map f (enumerate start l)) k
    = Some (f ((start + Z.of_nat k)%Z, row)).
Proof.
  induction l as [|x l IH]; intros start [|k] row H; simpl in *;
    try discriminate.
  - inversion H; subst. now rewrite Z.add_0_r.
  - rewrite (IH _ _ _ H). do 3 f_equal. lia.
Qed.

Lemma enumerate_length {A : Type} (l : list A) start :
  List.length (enumerate start l) = List.length l.
Proof. revert start. induction l; simpl; auto. Qed.

Lemma render_lines_rank ev rows k row :
  nth_error rows k = Some row ->
  nth_error (render_lines ev rows) (3 + k)
  = Some (attendee_line (Z.of_nat k + 1) row).
Proof.
  intros H. unfold render_lines.
  assert (Hk : (k < List.length rows)%nat)
    by (apply nth_error_Some; congruence).
  destruct rows as [|r rows]; [destruct k; discriminate|].
  cbn [app nth_error Nat.add].
  rewrite nth_error_app1
    by (rewrite length_map, enumerate_length; exact Hk).
  rewrite (nth_error_enumerate _ _ _ _ _ H), Z.add_comm. reflexivity.
Qed.

(** C5. The attendees that a render lists are exactly the rows of the
    event, in ascending [joined_at]; the row at position k (from 0) is
    printed on its own line with the number k+1; and the text depends only
    on the event row and on that ordered list, so that rendering again over
    the same rows gives the same text. *)
Theorem render_lists_by_joined_at ev con :
  let rows := select_attendees con (ev_id ev) in
  StronglySorted joined_le rows
  /\ Permutation (event_rows con (ev_id ev)) rows
  /\ (forall k row,
        nth_error rows k = Some row ->
        nth_error (render_lines ev rows) (3 + k)
        = Some (of_int (Z.of_nat k + 1) ++ lit ". "
                  ++ html_escape (human_name (at_username row)
                                    (at_first_name row))))
  /\ render_event_text ev con = join LF (render_lines ev rows)
  /\ (forall con',
        select_attendees con' (ev_id ev) = rows ->
        render_event_text ev con' = render_event_text ev con).
Proof.
  intros rows. repeat split.
  - apply select_attendees_sorted.
  - apply select_attendees_perm.
  - intros k row H. now rewrite (render_lines_rank _ _ _ _ H).
  - intros con' H. unfold render_event_text. now rewrite H.
Qed.

(** C6. The description and every display name enter the rendered lines
    only through [html.escape], and an escaped text holds no raw [<], [>]
    or quote, has every ampersand opening an entity, is the
    character-by-character escape of the original and reads back to it. *)
Theorem render_escapes_user_text ev con :
  let rows := select_attendees con (ev_id ev) in
  render_event_text ev con
  = join LF
      ([ 0x1F4C5 :: lit " <b>Evento</b>" ++ [LF]
           ++ html_escape (ev_description ev);
         [];
         0x1F465 :: lit " <b>Apuntados</b>:" ]
       ++ (match rows with
           | [] => [ lit "(nadie apuntado a" ++ [0xFA] ++ lit "n)" ]
           | _ =>
               List.map
                 (fun '(i, row) =>
                    of_int i ++ lit ". "
                      ++ html_escape (human_name (at_username row)
                                        (at_first_name row)))
                 (enumerate 1 rows)
           end)
       ++ [ [];
            0x1F552 :: lit " Creado: " ++ ev_created_at ev;
            0x1F194 :: lit " Evento #" ++ of_int (ev_id ev) ])
  /\ (forall s,
        well_escaped (html_escape s) = true
        /\ html_escape s = flat_map escape_char s
        /\ html_unescape (List.length s) (html_escape s) = s).
Proof.
  intros rows. split; [reflexivity|].
  intros s. repeat split.
  - apply well_escaped_html_escape.
  - apply html_escape_flat_map.
  - apply html_unescape_escape.
Qed.

(** ** Attendees who joined in the same minute *)

Lemma roster_lt_irrefl a : ~ roster_lt a a.
Proof.
  intros [H|[_ H]]; [|lia].
  unfold Str.ltb in H. now rewrite compare_refl in H.
Qed.

Lemma roster_lt_asym a b : roster_lt a b -> roster_lt b a -> False.
Proof.
  unfold roster_lt, Str.ltb.
  rewrite (compare_antisym (at_joined_at a) (at_joined_at b)).
  intros [H|[E H]] [H'|[E' H']].
  - destruct (Str.compare _ _); discriminate.
  - rewrite E', compare_refl in H. discriminate.
  - rewrite E, compare_refl in H'. discriminate.
  - lia.
Qed.

(** C7, as the code has it.  Attendees with the same [joined_at] are listed
    by ascending user id, the order of the primary key (event_id, user_id)
    through which the rows are fetched, not by insertion order.  The order
    of a roster is fixed by the rows the store holds for the event: two
    databases holding the same rows list them alike, so it cannot change
    between two renders with no mutation in between. *)
Theorem ties_break_by_user_id py_int ops event_id :
  let con := run py_int ops in
  StronglySorted roster_lt (select_attendees con event_id)
  /\ (forall ops',
        Permutation (event_rows (run py_int ops') event_id)
          (event_rows con event_id) ->
        select_attendees (run py_int ops') event_id
        = select_attendees con event_id).
Proof.
  intros con. split.
  - apply select_attendees_roster_lt, run_pk_unique.
  - intros ops' Hp.
    apply (StronglySorted_perm_unique roster_lt roster_lt_irrefl roster_lt_asym).
    + apply select_attendees_roster_lt, run_pk_unique.
    + apply select_attendees_roster_lt, run_pk_unique.
    + rewrite <- !select_attendees_perm. exact Hp.
Qed.

(** C7, as the spec has it, fails: user 5 joins an event and then user 3
    joins it within the same minute; the table holds them in that order
    and the roster lists user 3 first. *)
Lemma ties_not_in_insertion_order :
  let ana := mk_user 5 (Some (lit "ana")) (lit "Ana") in
  let luis := mk_user 3 (Some (lit "luis")) (lit "Luis") in
  let con :=
    run int_of_digits
      [ CreateEvent
          (mk_update (Some (mk_message (Some (lit "/partida Mesa 1")) 7 ana))
             None)
          (lit "2025-01-01 10:00");
        Button (mk_update None (Some (mk_query (Some (lit "join:1")) ana)))
          (lit "2025-01-01 10:05");
        Button (mk_update None (Some (mk_query (Some (lit "join:1")) luis)))
          (lit "2025-01-01 10:05") ] in
  List.map at_user_id (event_rows con 1) = [5%Z; 3%Z]
  /\ List.map at_joined_at (event_rows con 1)
     = [lit "2025-01-01 10:05"; lit "2025-01-01 10:05"]
  /\ List.map at_user_id (select_attendees con 1) = [3%Z; 5%Z]
  /\ ~ ties_in_insertion_order con 1.
Proof.
  intros ana luis con. repeat split; try reflexivity.
  intros H. specialize (H (lit "2025-01-01 10:05")).
  vm_compute in H. discriminate.
Qed.

(** ** Joining and leaving *)

Lemma insert_attendee_events con row :
  events (match insert_attendee con row with
          | Ok con' => con'
          | IntegrityError => con
          end) = events con.
Proof. unfold insert_attendee. now destruct (existsb _ _). Qed.

Lemma select_event_same_events con con' event_id :
  events con' = events con ->
  select_event con' event_id = select_event con event_id.
Proof. unfold select_event. now intros ->. Qed.

Lemma on_button_events py_int con upd now :
  events (fst (on_button py_int con upd now)) = events con.
Proof.
  unfold on_button.
  destruct (upd_callback_query upd) as [query|]; [|reflexivity].
  destruct (negb _); [reflexivity|].
  destruct (split1 _ _) as [action id_str].
  destruct (py_int id_str) as [event_id|]; [|reflexivity].
  destruct (select_event con event_id) as [ev|]; [|reflexivity].
  simpl. destruct (Str.eqb action (lit "join")).
  - apply insert_attendee_events.
  - now destruct (Str.eqb action (lit "leave")).
Qed.

Lemma on_button_join py_int con upd now query id_str event_id ev :
  upd_callback_query upd = Some query ->
  q_data query = Some (lit "join:" ++ id_str) ->
  py_int id_str = Some event_id ->
  select_event con event_id = Some ev ->
  on_button py_int con upd now
  = (let con' :=
       match insert_attendee con
               (mk_attendee event_id (u_id (q_from_user query))
                  (u_username (q_from_user query))
                  (Some (u_first_name (q_from_user query))) now) with
       | Ok con' => con'
       | IntegrityError => con
       end in
     (con', [answer;
             edit_message_text (render_event_text ev con') (Some HTML)
               (Some (event_keyboard event_id))])).
Proof.
  intros Hq Hd Hi Hev.
  rewrite (on_button_parsed py_int con upd now query (lit "join") id_str
             event_id Hq Hd eq_refl Hi).
  rewrite Hev. cbv zeta.
  change (Str.eqb (lit "join") (lit "join")) with true. cbv iota.
  rewrite (render_event_by_id_found _ _ ev); [reflexivity|].
  rewrite <- Hev. apply select_event_same_events, insert_attendee_events.
Qed.

Lemma on_button_leave py_int con upd now query id_str event_id ev :
  upd_callback_query upd = Some query ->
  q_data query = Some (lit "leave:" ++ id_str) ->
  py_int id_str = Some event_id ->
  select_event con event_id = Some ev ->
  on_button py_int con upd now
  = (let con' := delete_attendee con event_id (u_id (q_from_user query)) in
     (con', [answer;
             edit_message_text (render_event_text ev con') (Some HTML)
               (Some (event_keyboard event_id))])).
Proof.
  intros Hq Hd Hi Hev.
  rewrite (on_button_parsed py_int con upd now query (lit "leave") id_str
             event_id Hq Hd eq_refl Hi).
  rewrite Hev. cbv zeta.
  change (Str.eqb (lit "leave") (lit "join")) with false.
  change (Str.eqb (lit "leave") (lit "leave")) with true. cbv iota.
  rewrite (render_event_by_id_found _ _ ev); [reflexivity|].
  exact Hev.
Qed.

Lemma pk_eqb_refl k : pk_eqb k k = true.
Proof. now apply pk_eqb_eq. Qed.

(** C2. Pressing the join button twice in a row on an existing event
    leaves exactly one attendee row for the user; the second press changes
    nothing in the database; and each press ends with the message edited to
    the event's rendered text as it is after that press, never with a
    failure notice. *)
Theorem join_twice_idempotent
    py_int con upd query id_str event_id ev now1 now2 :
  upd_callback_query upd = Some query ->
  q_data query = Some (lit "join:" ++ id_str) ->
  py_int id_str = Some event_id ->
  select_event con event_id = Some ev ->
  pk_unique con ->
  let r1 := on_button py_int con upd now1 in
  let r2 := on_button py_int (fst r1) upd now2 in
  List.length (entries (fst r1) event_id (u_id (q_from_user query))) = 1%nat
  /\ List.length (entries (fst r2) event_id (u_id (q_from_user query))) = 1%nat
  /\ fst r2 = fst r1
  /\ snd r1 = [answer;
               edit_message_text (render_event_text ev (fst r1)) (Some HTML)
                 (Some (event_keyboard event_id))]
  /\ snd r2 = [answer;
               edit_message_text (render_event_text ev (fst r2)) (Some HTML)
                 (Some (event_keyboard event_id))].
Proof.
  intros Hq Hd Hi Hev Hpk r1 r2.
  assert (Hev1 : select_event (fst r1) event_id = Some ev).
  { rewrite <- Hev. apply select_event_same_events, on_button_events. }
  assert (E1 : r1 = on_button py_int con upd now1) by reflexivity.
  assert (E2 : r2 = on_button py_int (fst r1) upd now2) by reflexivity.
  rewrite (on_button_join _ _ _ _ _ _ _ _ Hq Hd Hi Hev1) in E2.
  rewrite (on_button_join _ _ _ _ _ _ _ _ Hq Hd Hi Hev) in E1.
  clearbody r1 r2. cbv zeta in E1, E2.
  set (user := q_from_user query) in *.
  assert (Hone : List.length (entries (fst r1) event_id (u_id user)) = 1%nat
                 /\ existsb (fun r => pk_eqb (pk r) (event_id, u_id user))
                      (attendees (fst r1)) = true).
  { subst r1. unfold insert_attendee. unfold pk at 2. simpl at_event_id.
    simpl at_user_id.
    destruct (existsb _ (attendees con)) eqn:Ex; simpl fst.
    - split; [|exact Ex].
      pose proof (entries_at_most_one con event_id (u_id user) Hpk).
      pose proof (existsb_pk_entries con event_id (u_id user) Ex). lia.
    - unfold entries. simpl attendees. rewrite filter_app, existsb_app.
      fold (entries con event_id (u_id user)).
      rewrite (existsb_pk_none _ _ _ Ex), Ex. simpl.
      unfold pk. simpl. rewrite pk_eqb_refl. split; reflexivity. }
  destruct Hone as [Hlen Hex].
  assert (E21 : fst r2 = fst r1).
  { subst r2. unfold insert_attendee. unfold pk at 2. simpl at_event_id.
    simpl at_user_id. fold user. rewrite Hex. reflexivity. }
  repeat split.
  - exact Hlen.
  - rewrite E21. exact Hlen.
  - exact E21.
  - subst r1. reflexivity.
  - rewrite E2. reflexivity.
Qed.

Lemma join_twice_idempotent_witness :
  let ana := mk_user 5 (Some (lit "ana")) (lit "Ana") in
  let con :=
    run int_of_digits
      [ CreateEvent
          (mk_update (Some (mk_message (Some (lit "/partida Mesa 1")) 7 ana))
             None)
          (lit "2025-01-01 10:00") ] in
  let upd := mk_update None (Some (mk_query (Some (lit "join:1")) ana)) in
  let r1 := on_button int_of_digits con upd (lit "2025-01-01 10:05") in
  let r2 := on_button int_of_digits (fst r1) upd (lit "2025-01-01 10:06") in
  List.length (entries (fst r2) 1 5) = 1%nat /\ fst r2 = fst r1.
Proof.
  intros ana con upd r1 r2.
  assert (Hpk : pk_unique con) by (vm_compute; constructor).
  destruct (join_twice_idempotent int_of_digits con upd
              (mk_query (Some (lit "join:1")) ana) (lit "1") 1%Z
              (mk_event 1 7 None (lit "Mesa 1") 5 (lit "2025-01-01 10:00"))
              (lit "2025-01-01 10:05") (lit "2025-01-01 10:06")
              eq_refl eq_refl eq_refl eq_refl Hpk)
    as [_ [H2 [H3 _]]].
  split; [exact H2 | exact H3].
Defined.

Lemma existsb_pk_deleted k l :
  existsb (fun r => pk_eqb (pk r) k)
    (filter (fun r => negb (pk_eqb (pk r) k)) l) = false.
Proof.
  induction l as [|x l IH]; simpl; [reflexivity|].
  destruct (pk_eqb (pk x) k) eqn:E; simpl; [exact IH|].
  now rewrite E.
Qed.

Lemma filter_pk_deleted k l :
  filter (fun r => pk_eqb (pk r) k)
    (filter (fun r => negb (pk_eqb (pk r) k)) l) = [].
Proof.
  apply filter_none. intros x Hx. apply filter_In in Hx as [_ Hx].
  now apply negb_true_iff in Hx.
Qed.

(** C3. Join, leave, join again on an existing event: the table ends up
    holding the other rows as they were and, after them, one fresh row for
    the user that carries the time of the second join; the roster lists the
    user once, after every attendee with an earlier [joined_at] and before
    every attendee with a later one, and prints the rank of that position
    next to the name. *)
Theorem rejoin_takes_new_timestamp
    py_int con upd_join upd_leave q_join q_leave id_str event_id ev
    now1 now2 now3 :
  upd_callback_query upd_join = Some q_join ->
  q_data q_join = Some (lit "join:" ++ id_str) ->
  upd_callback_query upd_leave = Some q_leave ->
  q_data q_leave = Some (lit "leave:" ++ id_str) ->
  u_id (q_from_user q_leave) = u_id (q_from_user q_join) ->
  py_int id_str = Some event_id ->
  select_event con event_id = Some ev ->
  let user := q_from_user q_join in
  let con1 := fst (on_button py_int con upd_join now1) in
  let con2 := fst (on_button py_int con1 upd_leave now2) in
  let r3 := on_button py_int con2 upd_join now3 in
  let fresh :=
    mk_attendee event_id (u_id user) (u_username user)
      (Some (u_first_name user)) now3 in
  attendees (fst r3)
  = filter (fun r => negb (pk_eqb (pk r) (event_id, u_id user)))
      (attendees con) ++ [fresh]
  /\ entries (fst r3) event_id (u_id user) = [fresh]
  /\ snd r3 = [answer;
               edit_message_text (render_event_text ev (fst r3)) (Some HTML)
                 (Some (event_keyboard event_id))]
  /\ exists before after,
       select_attendees (fst r3) event_id = before ++ fresh :: after
       /\ Forall (fun r => joined_le r fresh) before
       /\ Forall (fun r => joined_le fresh r) after
       /\ Forall (fun r => at_user_id r <> u_id user) (before ++ after)
       /\ nth_error (render_lines ev (select_attendees (fst r3) event_id))
            (3 + List.length before)
          = Some (of_int (Z.of_nat (List.length before) + 1) ++ lit ". "
                    ++ html_escape (human_name (at_username fresh)
                                      (at_first_name fresh))).
Proof.
  intros Hqj Hdj Hql Hdl Hu Hi Hev user con1 con2 r3 fresh.
  assert (Hev1 : select_event con1 event_id = Some ev).
  { rewrite <- Hev. apply select_event_same_events, on_button_events. }
  assert (Hev2 : select_event con2 event_id = Some ev).
  { rewrite <- Hev1. apply select_event_same_events, on_button_events. }
  set (gone := fun r => negb (pk_eqb (pk r) (event_id, u_id user))).
  assert (A2 : attendees con2 = filter gone (attendees con)).
  { subst con2.
    rewrite (on_button_leave _ _ _ _ _ _ _ _ Hql Hdl Hi Hev1). cbv zeta.
    simpl fst. unfold delete_attendee. simpl attendees. rewrite Hu.
    fold user. fold gone. subst con1.
    rewrite (on_button_join _ _ _ _ _ _ _ _ Hqj Hdj Hi Hev). cbv zeta.
    simpl fst. unfold insert_attendee.
    destruct (existsb _ (attendees con)); [reflexivity|].
    simpl attendees. rewrite filter_app. simpl.
    unfold gone at 2. unfold pk. simpl. fold user.
    rewrite pk_eqb_refl. simpl. now rewrite app_nil_r. }
  assert (E3 : r3 = (mk_db (events con2) (events_seq con2)
                       (attendees con2 ++ [fresh]),
                     [answer;
                      edit_message_text
                        (render_event_text ev
                           (mk_db (events con2) (events_seq con2)
                              (attendees con2 ++ [fresh])))
                        (Some HTML) (Some (event_keyboard event_id))])).
  { subst r3. rewrite (on_button_join _ _ _ _ _ _ _ _ Hqj Hdj Hi Hev2).
    cbv zeta. unfold insert_attendee. fold user. fold fresh.
    change (pk fresh) with (event_id, u_id user).
    rewrite A2. unfold gone. rewrite existsb_pk_deleted. reflexivity. }
  clearbody r3. subst r3. simpl fst. simpl snd.
  assert (Hrows : event_rows
                    (mk_db (events con2) (events_seq con2)
                       (attendees con2 ++ [fresh])) event_id
                  = filter (fun r => Z.eqb (at_event_id r) event_id)
                      (filter gone (attendees con)) ++ [fresh]).
  { unfold event_rows. simpl attendees. rewrite A2, filter_app. simpl.
    now rewrite Z.eqb_refl. }
  repeat split.
  - simpl attendees. now rewrite A2.
  - unfold entries. simpl attendees. rewrite A2, filter_app.
    unfold gone. rewrite filter_pk_deleted. simpl.
    now rewrite pk_eqb_refl.
  - set (con3 := mk_db _ _ _) in *.
    assert (Hin : In fresh (select_attendees con3 event_id)).
    { eapply Permutation_in; [apply select_attendees_perm|].
      rewrite Hrows. apply in_elt. }
    apply in_split in Hin as [before [after Hsplit]].
    exists before, after.
    pose proof (select_attendees_sorted con3 event_id) as Hs.
    rewrite Hsplit in Hs. apply StronglySorted_middle in Hs as [Hb Ha].
    repeat split; auto.
    + pose proof (select_attendees_perm con3 event_id) as Hp.
      rewrite Hsplit, Hrows in Hp. apply Permutation_app_inv in Hp.
      rewrite app_nil_r in Hp.
      eapply Permutation_Forall; [exact Hp|].
      rewrite Forall_forall. intros r Hr.
      apply filter_In in Hr as [Hr He]. apply filter_In in Hr as [_ Hg].
      apply Z.eqb_eq in He. unfold gone, pk in Hg.
      apply negb_true_iff in Hg. intros Eu.
      rewrite He, Eu, pk_eqb_refl in Hg. discriminate.
    + rewrite Hsplit. apply render_lines_rank.
      rewrite nth_error_app2 by lia. now rewrite Nat.sub_diag.
Qed.

Lemma rejoin_takes_new_timestamp_witness :
  let ana := mk_user 5 (Some (lit "ana")) (lit "Ana") in
  let luis := mk_user 3 None (lit "Luis") in
  let join := fun u => mk_update None (Some (mk_query (Some (lit "join:1")) u)) in
  let leave := fun u => mk_update None (Some (mk_query (Some (lit "leave:1")) u)) in
  let con :=
    run int_of_digits
      [ CreateEvent
          (mk_update (Some (mk_message (Some (lit "/partida Mesa 1")) 7 ana))
             None)
          (lit "2025-01-01 10:00");
        Button (join ana) (lit "2025-01-01 10:01");
        Button (join luis) (lit "2025-01-01 10:02") ] in
  let con1 := fst (on_button int_of_digits con (join ana) (lit "2025-01-01 10:03")) in
  let con2 := fst (on_button int_of_digits con1 (leave ana) (lit "2025-01-01 10:04")) in
  let r3 := on_button int_of_digits con2 (join ana) (lit "2025-01-01 10:05") in
  entries (fst r3) 1 5
  = [mk_attendee 1 5 (Some (lit "ana")) (Some (lit "Ana"))
       (lit "2025-01-01 10:05")]
  /\ List.map at_user_id (select_attendees (fst r3) 1) = [3%Z; 5%Z].
Proof.
  intros ana luis join leave con con1 con2 r3.
  destruct (rejoin_takes_new_timestamp int_of_digits con (join ana) (leave ana)
              (mk_query (Some (lit "join:1")) ana)
              (mk_query (Some (lit "leave:1")) ana) (lit "1") 1%Z
              (mk_event 1 7 None (lit "Mesa 1") 5 (lit "2025-01-01 10:00"))
              (lit "2025-01-01 10:03") (lit "2025-01-01 10:04")
              (lit "2025-01-01 10:05")
              eq_refl eq_refl eq_refl eq_refl eq_refl eq_refl eq_refl)
    as [_ [H _]].
  split; [exact H | reflexivity].
Defined.

(** ** A worked roster *)

(** An event is created, two users join, the first one leaves: the second
    one moves up to rank 1. *)
Example roster_scenario :
  let alice := mk_user 10 (Some (lit "alice")) (lit "Alice") in
  let bob := mk_user 20 None (lit "Bob") in
  let press := fun (d : string) u =>
    mk_update None (Some (mk_query (Some (lit d)) u)) in
  let '(con0, calls0, created) :=
    create_event init_db
      (mk_update
         (Some (mk_message (Some (lit "/partida Session 0: Friday 16:00")) 7
                  alice)) None)
      (lit "2025-10-10 09:00") in
  let con1 := fst (on_button int_of_digits con0 (press "join:1"%string alice)
                     (lit "2025-10-10 09:01")) in
  let con2 := fst (on_button int_of_digits con1 (press "join:1"%string bob)
                     (lit "2025-10-10 09:02")) in
  let con3 := fst (on_button int_of_digits con2 (press "leave:1"%string alice)
                     (lit "2025-10-10 09:03")) in
  let body := fun con =>
    match select_event con 1 with
    | Some ev => firstn (List.length (select_attendees con 1))
                   (skipn 3 (render_lines ev (select_attendees con 1)))
    | None => []
    end in
  created = Some 1%Z
  /\ nth_error (match select_event con0 1 with
                | Some ev => render_lines ev (select_attendees con0 1)
                | None => []
                end) 3
     = Some (lit "(nadie apuntado a" ++ [0xFA] ++ lit "n)")
  /\ body con1 = [lit "1. @alice"]
  /\ body con2 = [lit "1. @alice"; lit "2. Bob"]
  /\ body con3 = [lit "1. Bob"].
Proof. vm_compute. repeat split; reflexivity. Qed.

(** * Further properties of the handlers *)

(** ** Stripping *)

Lemma lstrip_split s :
  exists sp, s = sp ++ lstrip s /\ forallb isspace sp = true.
Proof.
  induction s as [|c s [sp [E Hsp]]]; simpl.
  - exists []. split; reflexivity.
  - destruct (isspace c) eqn:Hc.
    + exists (c :: sp). simpl. rewrite Hc, Hsp. split; [now f_equal | reflexivity].
    + exists []. split; reflexivity.
Qed.

Lemma lstrip_starts_solid s : lstrip s <> [] -> starts_solid (lstrip s) = true.
Proof.
  induction s as [|c s IH]; simpl; [congruence|].
  destruct (isspace c) eqn:Hc; [exact IH|].
  intros _. simpl. now rewrite Hc.
Qed.

Lemma starts_solid_app a b :
  starts_solid a = true -> starts_solid (a ++ b) = true.
Proof. destruct a; simpl; [discriminate | auto]. Qed.

Lemma starts_solid_prefix a b :
  a <> [] -> starts_solid (a ++ b) = true -> starts_solid a = true.
Proof. destruct a; simpl; [congruence | auto]. Qed.

Lemma strip_stripped s : strip s <> [] -> stripped (strip s) = true.
Proof.
  unfold strip, rstrip, stripped. set (t := lstrip s).
  intros Hne. rewrite rev_involutive.
  assert (Hne' : lstrip (rev t) <> []).
  { intros E. apply Hne. now rewrite E. }
  rewrite (lstrip_starts_solid _ Hne'), andb_true_r.
  destruct (lstrip_split (rev t)) as [sp [E _]].
  assert (Et : t = rev (lstrip (rev t)) ++ rev sp).
  { rewrite <- rev_app_distr, <- E. now rewrite rev_involutive. }
  apply (starts_solid_prefix _ (rev sp) Hne). rewrite <- Et.
  apply lstrip_starts_solid. intros Ht. apply Hne'.
  fold t in Ht. now rewrite Ht.
Qed.

Lemma stripped_fixed s : stripped s = true -> strip s = s.
Proof.
  unfold stripped, strip, rstrip. intros H.
  apply andb_true_iff in H as [H1 H2].
  assert (L : forall t, starts_solid t = true -> lstrip t = t).
  { intros [|c t]; simpl; [discriminate|].
    intros Hc. apply negb_true_iff in Hc. now rewrite Hc. }
  rewrite (L s H1), (L _ H2). apply rev_involutive.
Qed.

(** ** The two handlers, case by case *)

Lemma create_event_cases con upd now :
  create_event con upd now = (con, [], None)
  \/ create_event con upd now = (con, [reply_text USAGE_TEXT], None)
  \/ exists msg description,
       upd_message upd = Some msg
       /\ description = strip (snd (partition SPACE (or_empty (m_text msg))))
       /\ description <> []
       /\ let event_id := (events_seq con + 1)%Z in
          let con' :=
            mk_db (events con
                     ++ [mk_event event_id (m_chat_id msg) None description
                           (u_id (m_from_user msg)) now])
              event_id (attendees con) in
          create_event con upd now
          = (con',
             [reply_html (render_event_by_id con' event_id)
                (event_keyboard event_id)],
             Some event_id).
Proof.
  unfold create_event. destruct (upd_message upd) as [msg|]; [|now left].
  destruct (strip _) as [|c d] eqn:E; simpl negb; cbv iota.
  - right. now left.
  - right. right. exists msg, (c :: d).
    split; [reflexivity|]. split; [now rewrite E|].
    split; [discriminate|]. reflexivity.
Qed.

Lemma on_button_cases py_int con upd now :
  (fst (on_button py_int con upd now) = con
   /\ In (snd (on_button py_int con upd now))
        [ []; [answer]; [answer; edit_message_text GONE_TEXT None None] ])
  \/ exists query event_id ev con',
       upd_callback_query upd = Some query
       /\ select_event con event_id = Some ev
       /\ on_button py_int con upd now
          = (con', [answer;
                    edit_message_text (render_event_by_id con' event_id)
                      (Some HTML) (Some (event_keyboard event_id))])
       /\ (con' = con
           \/ insert_attendee con
                (mk_attendee event_id (u_id (q_from_user query))
                   (u_username (q_from_user query))
                   (Some (u_first_name (q_from_user query))) now) = Ok con'
           \/ con' = delete_attendee con event_id (u_id (q_from_user query))).
Proof.
  unfold on_button.
  destruct (upd_callback_query upd) as [query|]; [|left; simpl; auto].
  destruct (negb _); [left; simpl; auto|].
  destruct (split1 _ _) as [action id_str].
  destruct (py_int id_str) as [event_id|]; [|left; simpl; auto].
  destruct (select_event con event_id) as [ev|] eqn:Hev;
    [|left; simpl; auto].
  right. exists query, event_id, ev.
  destruct (Str.eqb action (lit "join")).
  - destruct (insert_attendee con _) as [con'|] eqn:Hi.
    + exists con'. repeat split; auto.
    + exists con. repeat split; auto.
  - destruct (Str.eqb action (lit "leave")).
    + eexists. repeat split; auto.
    + exists con. repeat split; auto.
Qed.

Lemma insert_attendee_ok con row con' :
  insert_attendee con row = Ok con' ->
  con' = mk_db (events con) (events_seq con) (attendees con ++ [row])
  /\ existsb (fun r => pk_eqb (pk r) (pk row)) (attendees con) = false.
Proof.
  unfold insert_attendee. destruct (existsb _ _); [discriminate|].
  intros H. inversion H. auto.
Qed.

Lemma on_button_events_seq py_int con upd now :
  events_seq (fst (on_button py_int con upd now)) = events_seq con.
Proof.
  destruct (on_button_cases py_int con upd now)
    as [[E _]|[query [event_id [ev [con' [_ [_ [E H]]]]]]]].
  - now rewrite E.
  - rewrite E. simpl. destruct H as [->|[H| ->]]; try reflexivity.
    apply insert_attendee_ok in H as [-> _]. reflexivity.
Qed.

(** ** Invariants of the two tables *)

Lemma event_exists_select con event_id ev :
  select_event con event_id = Some ev -> event_exists con event_id = true.
Proof.
  intros H. apply select_event_some in H as [Hin Hid].
  unfold event_exists. apply existsb_exists. exists ev.
  split; [exact Hin | now apply Z.eqb_eq].
Qed.

Lemma event_exists_same_ids con con' event_id :
  List.map ev_id (events con') = List.map ev_id (events con) ->
  event_exists con' event_id = event_exists con event_id.
Proof.
  unfold event_exists. generalize (events con') (events con).
  induction l as [|e l IH]; intros [|e' l'] H; simpl in *;
    try discriminate; [reflexivity|].
  inversion H as [[He Hl]]. rewrite He. f_equal. now apply IH.
Qed.

Lemma update_message_id_ids con message_id event_id :
  List.map ev_id (events (update_message_id con message_id event_id))
  = List.map ev_id (events con).
Proof.
  simpl. rewrite map_map. apply map_ext. intros e.
  now destruct (Z.eqb (ev_id e) event_id).
Qed.

Lemma update_message_id_cores con message_id event_id :
  List.map event_core (events (update_message_id con message_id event_id))
  = List.map event_core (events con).
Proof.
  simpl. rewrite map_map. apply map_ext. intros e.
  now destruct (Z.eqb (ev_id e) event_id).
Qed.

Lemma step_ids_sequential py_int con o :
  event_ids_sequential con -> event_ids_sequential (step py_int con o).
Proof.
  intros [Hids Hseq]. destruct o as [upd now|event_id mid|upd now]; simpl.
  - destruct (create_event_cases con upd now)
      as [E|[E|[msg [d [_ [_ [_ E]]]]]]]; rewrite E; simpl;
      try (split; assumption).
    unfold event_ids_sequential. simpl.
    rewrite map_app, length_app, Hids. simpl.
    rewrite Nat.add_1_r, seq_S, map_app. simpl. split.
    + do 2 f_equal. rewrite Hseq. lia.
    + rewrite Hseq. lia.
  - unfold event_ids_sequential, create_event_sent.
    rewrite update_message_id_ids. simpl events. simpl events_seq.
    rewrite length_map. split; assumption.
  - unfold event_ids_sequential.
    rewrite on_button_events, on_button_events_seq. split; assumption.
Qed.

Lemma step_attendees_have_events py_int con o :
  attendees_have_events con -> attendees_have_events (step py_int con o).
Proof.
  unfold attendees_have_events. intros H.
  destruct o as [upd now|event_id mid|upd now]; simpl.
  - destruct (create_event_cases con upd now)
      as [E|[E|[msg [d [_ [_ [_ E]]]]]]]; rewrite E; simpl; try assumption.
    eapply Forall_impl; [|exact H]. intros r Hr. unfold event_exists in *.
    simpl. rewrite existsb_app, Hr. reflexivity.
  - unfold create_event_sent. simpl attendees.
    eapply Forall_impl; [|exact H]. intros r Hr.
    now rewrite (event_exists_same_ids con)
      by apply update_message_id_ids.
  - destruct (on_button_cases py_int con upd now)
      as [[E _]|[query [event_id [ev [con' [_ [Hev [E Hc]]]]]]]].
    + now rewrite E.
    + rewrite E. simpl fst. destruct Hc as [->|[Hi| ->]]; [assumption| |].
      * apply insert_attendee_ok in Hi as [-> _]. simpl attendees.
        apply Forall_app. split.
        -- eapply Forall_impl; [|exact H]. intros r Hr. exact Hr.
        -- constructor; [|constructor]. simpl.
           apply (event_exists_select con _ ev Hev).
      * simpl attendees. rewrite Forall_forall in *. intros r Hr.
        apply filter_In in Hr as [Hr _]. apply (H r Hr).
Qed.

Lemma step_descriptions_stripped py_int con o :
  Forall (fun e => stripped (ev_description e) = true) (events con) ->
  Forall (fun e => stripped (ev_description e) = true)
    (events (step py_int con o)).
Proof.
  intros H. destruct o as [upd now|event_id mid|upd now]; simpl.
  - destruct (create_event_cases con upd now)
      as [E|[E|[msg [d [_ [Hd [Hne E]]]]]]]; rewrite E; simpl; try assumption.
    apply Forall_app. split; [assumption|].
    constructor; [|constructor]. simpl. subst d. now apply strip_stripped.
  - rewrite Forall_forall in *. intros e He.
    apply in_map_iff in He as [e' [<- He']].
    destruct (Z.eqb (ev_id e') event_id); simpl; auto.
  - now rewrite on_button_events.
Qed.

Lemma run_invariant py_int (P : db -> Prop) :
  P init_db -> (forall con o, P con -> P (step py_int con o)) ->
  forall ops, P (run py_int ops).
Proof.
  intros H0 Hstep ops. unfold run. revert H0. generalize init_db.
  induction ops as [|o ops IH]; simpl; intros con H; [exact H|].
  apply IH, Hstep, H.
Qed.

Lemma run_ids_sequential py_int ops : event_ids_sequential (run py_int ops).
Proof.
  apply run_invariant; [split; reflexivity|].
  intros con o. apply step_ids_sequential.
Qed.

Lemma run_attendees_have_events py_int ops :
  attendees_have_events (run py_int ops).
Proof.
  apply run_invariant; [constructor|].
  intros con o. apply step_attendees_have_events.
Qed.

Lemma sequential_id_bounds con e :
  event_ids_sequential con -> In e (events con) ->
  (1 <= ev_id e <= events_seq con)%Z.
Proof.
  intros [Hids Hseq] Hin. apply (in_map ev_id) in Hin. rewrite Hids in Hin.
  apply in_map_iff in Hin as [k [<- Hk]]. apply in_seq in Hk. lia.
Qed.

Lemma event_exists_bounds con event_id :
  event_ids_sequential con -> event_exists con event_id = true ->
  (1 <= event_id <= events_seq con)%Z.
Proof.
  intros Hs H. unfold event_exists in H.
  apply existsb_exists in H as [e [Hin He]]. apply Z.eqb_eq in He.
  rewrite <- He. now apply sequential_id_bounds.
Qed.

Lemma find_app_last {A : Type} (p : A -> bool) l x :
  find p l = None -> find p (l ++ [x]) = if p x then Some x else None.
Proof.
  induction l as [|y l IH]; simpl; [reflexivity|].
  destruct (p y); [discriminate | exact IH].
Qed.

(** ** Events *)

(** X1. The ids of the stored events count up from 1 in the order of creation,
    the AUTOINCREMENT counter equals their number, and no id occurs
    twice. *)
Theorem event_ids_count_up py_int ops :
  let con := run py_int ops in
  List.map ev_id (events con)
  = List.map Z.of_nat (seq 1 (List.length (events con)))
  /\ events_seq con = Z.of_nat (List.length (events con))
  /\ NoDup (List.map ev_id (events con)).
Proof.
  intros con. destruct (run_ids_sequential py_int ops) as [Hids Hseq].
  fold con in Hids, Hseq. repeat split; auto.
  rewrite Hids. apply (NoDup_map_coarser (fun n : nat => n)).
  - intros a b _ _. apply Nat2Z.inj.
  - rewrite map_id. apply seq_NoDup.
Qed.

(** X2. Every attendee row belongs to an event that [events] holds, although
    the schema's foreign key is not what enforces it: the handler looks the
    event up before it inserts. *)
Theorem attendees_belong_to_events py_int ops r :
  In r (attendees (run py_int ops)) ->
  exists ev,
    select_event (run py_int ops) (at_event_id r) = Some ev
    /\ ev_id ev = at_event_id r.
Proof.
  intros Hin. pose proof (run_attendees_have_events py_int ops) as H.
  unfold attendees_have_events in H. rewrite Forall_forall in H.
  specialize (H r Hin). unfold event_exists in H.
  destruct (select_event _ _) as [ev|] eqn:E.
  - exists ev. split; [reflexivity|]. now apply select_event_some in E.
  - unfold select_event in E. apply existsb_exists in H as [e [He Hid]].
    apply (find_none _ _ E) in He. congruence.
Qed.

Lemma attendees_belong_to_events_witness :
  let ana := mk_user 5 (Some (lit "ana")) (lit "Ana") in
  let ops :=
    [ CreateEvent
        (mk_update (Some (mk_message (Some (lit "/partida Mesa 1")) 7 ana))
           None)
        (lit "2025-01-01 10:00");
      Button (mk_update None (Some (mk_query (Some (lit "join:1")) ana)))
        (lit "2025-01-01 10:05") ] in
  exists ev,
    select_event (run int_of_digits ops) 1 = Some ev /\ ev_id ev = 1%Z.
Proof.
  intros ana ops.
  apply (attendees_belong_to_events int_of_digits ops
           (mk_attendee 1 5 (Some (lit "ana")) (Some (lit "Ana"))
              (lit "2025-01-01 10:05"))).
  vm_compute. left. reflexivity.
Defined.

(** X3. No event is ever stored with an empty description or with whitespace
    at either end of it. *)
Theorem stored_descriptions_are_stripped py_int ops :
  Forall (fun e => stripped (ev_description e) = true
                   /\ strip (ev_description e) = ev_description e
                   /\ truthy (ev_description e) = true)
    (events (run py_int ops)).
Proof.
  assert (H : Forall (fun e => stripped (ev_description e) = true)
                (events (run py_int ops))).
  { apply (run_invariant py_int
             (fun con => Forall (fun e => stripped (ev_description e) = true)
                           (events con))); [constructor|].
    intros con o. apply step_descriptions_stripped. }
  eapply Forall_impl; [|exact H]. intros e He. repeat split; auto.
  - now apply stripped_fixed.
  - unfold stripped in He. destruct (ev_description e); [discriminate|reflexivity].
Qed.

(** X4. Whatever a step does, the events stored before it keep their id, chat,
    description, creator and creation time and their place in the table;
    at most one event is added after them and none is removed. *)
Theorem step_keeps_stored_events py_int con o :
  exists added,
    List.map event_core (events (step py_int con o))
    = List.map event_core (events con) ++ added
    /\ (List.length added <= 1)%nat.
Proof.
  destruct o as [upd now|event_id mid|upd now]; unfold step.
  - destruct (create_event_cases con upd now)
      as [E|[E|[msg [d [_ [_ [_ E]]]]]]]; rewrite E; simpl.
    + exists []. rewrite app_nil_r. split; [reflexivity | simpl; lia].
    + exists []. rewrite app_nil_r. split; [reflexivity | simpl; lia].
    + eexists. rewrite map_app. split; [reflexivity | simpl; lia].
  - exists []. rewrite app_nil_r. unfold create_event_sent.
    rewrite update_message_id_cores. split; [reflexivity | simpl; lia].
  - exists []. rewrite app_nil_r, on_button_events.
    split; [reflexivity | simpl; lia].
Qed.

(** X5. A well-formed /partida message on any database the bot can reach: the
    text after the first space, stripped, becomes the description of a new
    last row of [events] whose id is one more than the counter and whose
    message id is still unset; the attendees are untouched; the reply is
    the new event's rendered text with its keyboard; and the new event's
    roster is empty, so the text shows the nobody-yet line. *)
Theorem create_event_stores_and_renders py_int ops upd msg now cmd raw :
  let con := run py_int ops in
  upd_message upd = Some msg ->
  m_text msg = Some (cmd ++ SPACE :: raw) ->
  contains SPACE cmd = false ->
  strip raw <> [] ->
  let event_id := (events_seq con + 1)%Z in
  let ev :=
    mk_event event_id (m_chat_id msg) None (strip raw)
      (u_id (m_from_user msg)) now in
  let con' := mk_db (events con ++ [ev]) event_id (attendees con) in
  create_event con upd now
  = (con',
     [reply_html (render_event_text ev con') (event_keyboard event_id)],
     Some event_id)
  /\ select_event con' event_id = Some ev
  /\ select_attendees con' event_id = []
  /\ nth_error (render_lines ev (select_attendees con' event_id)) 3
     = Some (lit "(nadie apuntado a" ++ [0xFA] ++ lit "n)").
Proof.
  intros con Hm Ht Hc Hne event_id ev con'.
  pose proof (run_ids_sequential py_int ops) as Hseq. fold con in Hseq.
  pose proof (run_attendees_have_events py_int ops) as Hatt. fold con in Hatt.
  assert (Hsel : select_event con' event_id = Some ev).
  { unfold select_event. simpl events. rewrite find_app_last.
    - simpl. now rewrite Z.eqb_refl.
    - destruct (find _ (events con)) as [e|] eqn:E; [|reflexivity].
      apply find_some in E as [Hin He]. apply Z.eqb_eq in He.
      pose proof (sequential_id_bounds con e Hseq Hin). subst event_id. lia. }
  assert (Hrows : select_attendees con' event_id = []).
  { unfold select_attendees, index_search. simpl attendees.
    rewrite filter_none; [reflexivity|]. intros r Hr.
    unfold attendees_have_events in Hatt. rewrite Forall_forall in Hatt.
    pose proof (event_exists_bounds con _ Hseq (Hatt r Hr)).
    apply Z.eqb_neq. subst event_id. lia. }
  repeat split; auto.
  - unfold create_event. rewrite Hm, Ht. simpl or_empty.
    rewrite (partition_first _ _ _ Hc). simpl snd.
    destruct (strip raw) as [|c d] eqn:E; [congruence|].
    simpl negb. cbv iota. unfold insert_event.
    fold con event_id. fold ev. fold con'.
    now rewrite (render_event_by_id_found _ _ _ Hsel).
  - rewrite Hrows. reflexivity.
Qed.

Lemma create_event_stores_and_renders_witness :
  let ana := mk_user 5 (Some (lit "ana")) (lit "Ana") in
  let msg := mk_message (Some (lit "/partida  Mesa 1 ")) 7 ana in
  snd (create_event init_db (mk_update (Some msg) None) (lit "2025-01-01 10:00"))
  = Some 1%Z.
Proof.
  intros ana msg.
  destruct (create_event_stores_and_renders int_of_digits []
              (mk_update (Some msg) None) msg (lit "2025-01-01 10:00")
              (lit "/partida") (lit " Mesa 1 ") eq_refl eq_refl eq_refl)
    as [H _].
  - vm_compute. discriminate.
  - change (run int_of_digits []) with init_db in H. rewrite H. reflexivity.
Defined.

(** ** More about filtering and sorting *)

Lemma filter_Permutation {A : Type} (p : A -> bool) l l' :
  Permutation l l' -> Permutation (filter p l) (filter p l').
Proof.
  induction 1 as [|x l l' _ IH|x y l|l l' l'' _ IH1 _ IH2]; simpl.
  - constructor.
  - destruct (p x); [now constructor | exact IH].
  - destruct (p x), (p y); try reflexivity. apply perm_swap.
  - now transitivity (filter p l').
Qed.

Lemma filter_StronglySorted {A : Type} (R : A -> A -> Prop) (p : A -> bool) l :
  StronglySorted R l -> StronglySorted R (filter p l).
Proof.
  induction 1 as [|x l Hs IH Hx]; simpl; [constructor|].
  destruct (p x); [|exact IH]. constructor; [exact IH|].
  rewrite Forall_forall in *. intros y Hy. apply filter_In in Hy as [Hy _].
  auto.
Qed.

Lemma filter_all {A : Type} (p : A -> bool) l :
  (forall x, In x l -> p x = true) -> filter p l = l.
Proof.
  induction l as [|x l IH]; simpl; intros H; [reflexivity|].
  rewrite (H x (or_introl eq_refl)). f_equal. apply IH. auto.
Qed.

Lemma filter_comm {A : Type} (p q : A -> bool) l :
  filter p (filter q l) = filter q (filter p l).
Proof.
  induction l as [|x l IH]; simpl; [reflexivity|].
  destruct (p x) eqn:Hp, (q x) eqn:Hq; simpl; rewrite ?Hp, ?Hq, IH; reflexivity.
Qed.

Lemma select_attendees_of_rows con con' event_id event_id' :
  event_rows con' event_id' = event_rows con event_id ->
  select_attendees con' event_id' = select_attendees con event_id.
Proof.
  unfold select_attendees, index_search.
  change (filter (fun r => Z.eqb (at_event_id r) event_id') (attendees con'))
    with (event_rows con' event_id').
  change (filter (fun r => Z.eqb (at_event_id r) event_id) (attendees con))
    with (event_rows con event_id).
  now intros ->.
Qed.

(** Under the primary key a roster is determined by its rows. *)
Lemma roster_unique con event_id l :
  pk_unique con ->
  StronglySorted roster_lt l ->
  Permutation (event_rows con event_id) l ->
  select_attendees con event_id = l.
Proof.
  intros Hpk Hs Hp.
  apply (StronglySorted_perm_unique roster_lt roster_lt_irrefl roster_lt_asym).
  - now apply select_attendees_roster_lt.
  - exact Hs.
  - now rewrite <- select_attendees_perm.
Qed.

Lemma db_eta con : mk_db (events con) (events_seq con) (attendees con) = con.
Proof. now destruct con. Qed.

Lemma entries_none_not_pk con event_id user_id r :
  entries con event_id user_id = [] -> In r (attendees con) ->
  pk_eqb (pk r) (event_id, user_id) = false.
Proof.
  unfold entries. intros E Hin.
  destruct (pk_eqb (pk r) (event_id, user_id)) eqn:Hk; [|reflexivity].
  assert (H : In r (filter (fun r => pk_eqb (pk r) (event_id, user_id))
                      (attendees con))) by (apply filter_In; auto).
  rewrite E in H. destruct H.
Qed.

Lemma delete_absent con event_id user_id :
  entries con event_id user_id = [] ->
  delete_attendee con event_id user_id = con.
Proof.
  intros E. unfold delete_attendee. rewrite filter_all; [apply db_eta|].
  intros r Hr. now rewrite (entries_none_not_pk _ _ _ _ E Hr).
Qed.

Lemma event_rows_delete con event_id user_id :
  event_rows (delete_attendee con event_id user_id) event_id
  = filter (fun r => negb (Z.eqb (at_user_id r) user_id))
      (event_rows con event_id).
Proof.
  unfold event_rows, delete_attendee. simpl attendees.
  induction (attendees con) as [|r l IH]; simpl; [reflexivity|].
  unfold pk_eqb at 1. simpl.
  destruct (Z.eqb_spec (at_event_id r) event_id) as [He|He]; simpl.
  - destruct (Z.eqb (at_user_id r) user_id); simpl.
    + exact IH.
    + apply Z.eqb_eq in He. rewrite He. now rewrite IH.
  - apply Z.eqb_neq in He. rewrite He. exact IH.
Qed.

Lemma event_rows_other_delete con event_id user_id event_id' :
  event_id' <> event_id ->
  event_rows (delete_attendee con event_id user_id) event_id'
  = event_rows con event_id'.
Proof.
  intros Hne. unfold event_rows, delete_attendee. simpl attendees.
  rewrite filter_comm. apply filter_all. intros r Hr.
  apply filter_In in Hr as [_ Hr]. apply Z.eqb_eq in Hr.
  unfold pk_eqb, pk. simpl. apply negb_true_iff, andb_false_iff. left.
  apply Z.eqb_neq. congruence.
Qed.

Lemma event_rows_other_insert con row con' event_id' :
  insert_attendee con row = Ok con' ->
  event_id' <> at_event_id row ->
  event_rows con' event_id' = event_rows con event_id'.
Proof.
  intros Hi Hne. apply insert_attendee_ok in Hi as [-> _].
  unfold event_rows. simpl attendees. rewrite filter_app. simpl.
  apply Z.eqb_neq in Hne. rewrite Z.eqb_sym in Hne. rewrite Hne.
  apply app_nil_r.
Qed.

(** ** Leaving *)

(** X6. A leave button pressed by a user who has no row in the event deletes
    nothing: the database is returned as it was and the message is edited
    to the unchanged rendered text. *)
Theorem leave_absent_is_noop py_int con upd now query id_str event_id ev :
  upd_callback_query upd = Some query ->
  q_data query = Some (lit "leave:" ++ id_str) ->
  py_int id_str = Some event_id ->
  select_event con event_id = Some ev ->
  entries con event_id (u_id (q_from_user query)) = [] ->
  on_button py_int con upd now
  = (con, [answer;
           edit_message_text (render_event_text ev con) (Some HTML)
             (Some (event_keyboard event_id))]).
Proof.
  intros Hq Hd Hi Hev Habs.
  rewrite (on_button_leave _ _ _ _ _ _ _ _ Hq Hd Hi Hev). cbv zeta.
  now rewrite (delete_absent _ _ _ Habs).
Qed.

Lemma leave_absent_is_noop_witness :
  let ana := mk_user 5 (Some (lit "ana")) (lit "Ana") in
  let con :=
    run int_of_digits
      [ CreateEvent
          (mk_update (Some (mk_message (Some (lit "/partida Mesa 1")) 7 ana))
             None)
          (lit "2025-01-01 10:00") ] in
  let upd := mk_update None (Some (mk_query (Some (lit "leave:1")) ana)) in
  fst (on_button int_of_digits con upd (lit "2025-01-01 10:05")) = con.
Proof.
  intros ana con upd.
  rewrite (leave_absent_is_noop int_of_digits con upd (lit "2025-01-01 10:05")
             (mk_query (Some (lit "leave:1")) ana) (lit "1") 1%Z
             (mk_event 1 7 None (lit "Mesa 1") 5 (lit "2025-01-01 10:00"))
             eq_refl eq_refl eq_refl eq_refl eq_refl).
  reflexivity.
Defined.

(** X7. A leave button on an existing event deletes the presser's row and no
    other: the table keeps every other row in place, the user has no row
    left in the event, and the roster is the old roster without the user,
    the others in their old order, so that those listed after the user
    move up by one rank. *)
Theorem leave_removes_only_that_user
    py_int con upd now query id_str event_id ev :
  upd_callback_query upd = Some query ->
  q_data query = Some (lit "leave:" ++ id_str) ->
  py_int id_str = Some event_id ->
  select_event con event_id = Some ev ->
  pk_unique con ->
  let user_id := u_id (q_from_user query) in
  let con' := fst (on_button py_int con upd now) in
  attendees con'
  = filter (fun r => negb (pk_eqb (pk r) (event_id, user_id))) (attendees con)
  /\ entries con' event_id user_id = []
  /\ select_attendees con' event_id
     = filter (fun r => negb (Z.eqb (at_user_id r) user_id))
         (select_attendees con event_id).
Proof.
  intros Hq Hd Hi Hev Hpk user_id con'. subst con'.
  rewrite (on_button_leave _ _ _ _ _ _ _ _ Hq Hd Hi Hev). cbv zeta.
  simpl fst. fold user_id. repeat split.
  - unfold entries. simpl attendees. apply filter_pk_deleted.
  - apply roster_unique.
    + now apply delete_attendee_pk_unique.
    + apply filter_StronglySorted. now apply select_attendees_roster_lt.
    + rewrite event_rows_delete. apply filter_Permutation.
      apply select_attendees_perm.
Qed.

Lemma leave_removes_only_that_user_witness :
  let ana := mk_user 5 (Some (lit "ana")) (lit "Ana") in
  let luis := mk_user 3 None (lit "Luis") in
  let press := fun (d : string) u =>
    mk_update None (Some (mk_query (Some (lit d)) u)) in
  let con :=
    run int_of_digits
      [ CreateEvent
          (mk_update (Some (mk_message (Some (lit "/partida Mesa 1")) 7 ana))
             None)
          (lit "2025-01-01 10:00");
        Button (press "join:1"%string ana) (lit "2025-01-01 10:01");
        Button (press "join:1"%string luis) (lit "2025-01-01 10:02") ] in
  let con' := fst (on_button int_of_digits con (press "leave:1"%string ana)
                     (lit "2025-01-01 10:03")) in
  List.map at_user_id (select_attendees con' 1) = [3%Z].
Proof.
  intros ana luis press con con'.
  assert (Hpk : pk_unique con).
  { vm_compute. repeat constructor; simpl; intuition discriminate. }
  destruct (leave_removes_only_that_user int_of_digits con
              (press "leave:1"%string ana) (lit "2025-01-01 10:03")
              (mk_query (Some (lit "leave:1")) ana) (lit "1") 1%Z
              (mk_event 1 7 None (lit "Mesa 1") 5 (lit "2025-01-01 10:00"))
              eq_refl eq_refl eq_refl eq_refl Hpk) as [_ [_ H]].
  fold con' in H. rewrite H. reflexivity.
Defined.

(** ** Joining *)

Lemma entries_none_existsb con event_id user_id :
  entries con event_id user_id = [] ->
  existsb (fun r => pk_eqb (pk r) (event_id, user_id)) (attendees con) = false.
Proof.
  intros E. destruct (existsb _ _) eqn:Ex; [|reflexivity].
  apply existsb_pk_entries in Ex. rewrite E in Ex. simpl in Ex. lia.
Qed.

(** X8. A join button pressed by a user with no row in the event appends one
    row to the table; the roster gains exactly that row and the attendees
    already listed keep their order among themselves. *)
Theorem join_new_user_appends py_int con upd now query id_str event_id ev :
  upd_callback_query upd = Some query ->
  q_data query = Some (lit "join:" ++ id_str) ->
  py_int id_str = Some event_id ->
  select_event con event_id = Some ev ->
  pk_unique con ->
  let user := q_from_user query in
  entries con event_id (u_id user) = [] ->
  let row :=
    mk_attendee event_id (u_id user) (u_username user)
      (Some (u_first_name user)) now in
  let con' := fst (on_button py_int con upd now) in
  attendees con' = attendees con ++ [row]
  /\ In row (select_attendees con' event_id)
  /\ List.length (select_attendees con' event_id)
     = S (List.length (select_attendees con event_id))
  /\ filter (fun r => negb (Z.eqb (at_user_id r) (u_id user)))
       (select_attendees con' event_id)
     = select_attendees con event_id.
Proof.
  intros Hq Hd Hi Hev Hpk user Habs row con'.
  assert (Ex := entries_none_existsb _ _ _ Habs).
  assert (Hok : insert_attendee con row
                = Ok (mk_db (events con) (events_seq con)
                        (attendees con ++ [row]))).
  { unfold insert_attendee. change (pk row) with (event_id, u_id user).
    now rewrite Ex. }
  assert (E : con' = mk_db (events con) (events_seq con)
                       (attendees con ++ [row])).
  { subst con'. rewrite (on_button_join _ _ _ _ _ _ _ _ Hq Hd Hi Hev).
    cbv zeta. fold user. fold row. now rewrite Hok. }
  assert (Hpk' : pk_unique con').
  { rewrite E. eapply insert_attendee_pk_unique; eauto. }
  assert (Hrows : event_rows con' event_id = event_rows con event_id ++ [row]).
  { rewrite E. unfold event_rows. simpl attendees. rewrite filter_app.
    simpl. now rewrite Z.eqb_refl. }
  pose proof (select_attendees_perm con' event_id) as Hp.
  rewrite Hrows in Hp.
  repeat split.
  - now rewrite E.
  - eapply Permutation_in; [exact Hp|]. apply in_elt.
  - rewrite <- (Permutation_length Hp), length_app. simpl.
    rewrite (Permutation_length (select_attendees_perm con event_id)). lia.
  - symmetry. apply roster_unique; [exact Hpk| |].
    + apply filter_StronglySorted. now apply select_attendees_roster_lt.
    + rewrite <- (filter_Permutation _ _ _ Hp), filter_app. simpl.
      rewrite Z.eqb_refl. simpl. rewrite app_nil_r.
      rewrite filter_all; [reflexivity|]. intros r Hr.
      unfold event_rows in Hr. apply filter_In in Hr as [Hr He].
      pose proof (entries_none_not_pk _ _ _ _ Habs Hr) as Hk.
      unfold pk_eqb, pk in Hk. simpl in Hk. rewrite He in Hk.
      simpl in Hk. now rewrite Hk.
Qed.

Lemma join_new_user_appends_witness :
  let ana := mk_user 5 (Some (lit "ana")) (lit "Ana") in
  let luis := mk_user 3 None (lit "Luis") in
  let press := fun (d : string) u =>
    mk_update None (Some (mk_query (Some (lit d)) u)) in
  let con :=
    run int_of_digits
      [ CreateEvent
          (mk_update (Some (mk_message (Some (lit "/partida Mesa 1")) 7 ana))
             None)
          (lit "2025-01-01 10:00");
        Button (press "join:1"%string ana) (lit "2025-01-01 10:01") ] in
  let con' := fst (on_button int_of_digits con (press "join:1"%string luis)
                     (lit "2025-01-01 10:02")) in
  List.length (select_attendees con' 1) = 2%nat.
Proof.
  intros ana luis press con con'.
  assert (Hpk : pk_unique con).
  { vm_compute. repeat constructor; simpl; intuition discriminate. }
  destruct (join_new_user_appends int_of_digits con
              (press "join:1"%string luis) (lit "2025-01-01 10:02")
              (mk_query (Some (lit "join:1")) luis) (lit "1") 1%Z
              (mk_event 1 7 None (lit "Mesa 1") 5 (lit "2025-01-01 10:00"))
              eq_refl eq_refl eq_refl eq_refl Hpk eq_refl) as [_ [_ [H _]]].
  fold con' in H. rewrite H. reflexivity.
Defined.

(** X9. A join button pressed by a user who already has a row in the event
    changes nothing in the database: the row keeps the [joined_at] and the
    names it was inserted with, whatever the clock and the user's names are
    now. *)
Theorem join_present_changes_nothing
    py_int con upd now query id_str event_id ev :
  upd_callback_query upd = Some query ->
  q_data query = Some (lit "join:" ++ id_str) ->
  py_int id_str = Some event_id ->
  select_event con event_id = Some ev ->
  entries con event_id (u_id (q_from_user query)) <> [] ->
  on_button py_int con upd now
  = (con, [answer;
           edit_message_text (render_event_text ev con) (Some HTML)
             (Some (event_keyboard event_id))]).
Proof.
  intros Hq Hd Hi Hev Hpres.
  rewrite (on_button_join _ _ _ _ _ _ _ _ Hq Hd Hi Hev). cbv zeta.
  unfold insert_attendee. unfold pk at 2. simpl at_event_id. simpl at_user_id.
  destruct (existsb _ _) eqn:Ex; [reflexivity|].
  now apply existsb_pk_none in Ex.
Qed.

Lemma join_present_changes_nothing_witness :
  let ana := mk_user 5 (Some (lit "ana")) (lit "Ana") in
  let ana' := mk_user 5 (Some (lit "anita")) (lit "Anita") in
  let press := fun (d : string) u =>
    mk_update None (Some (mk_query (Some (lit d)) u)) in
  let con :=
    run int_of_digits
      [ CreateEvent
          (mk_update (Some (mk_message (Some (lit "/partida Mesa 1")) 7 ana))
             None)
          (lit "2025-01-01 10:00");
        Button (press "join:1"%string ana) (lit "2025-01-01 10:01") ] in
  fst (on_button int_of_digits con (press "join:1"%string ana')
         (lit "2025-01-02 18:30")) = con.
Proof.
  intros ana ana' press con.
  rewrite (join_present_changes_nothing int_of_digits con
             (press "join:1"%string ana') (lit "2025-01-02 18:30")
             (mk_query (Some (lit "join:1")) ana') (lit "1") 1%Z
             (mk_event 1 7 None (lit "Mesa 1") 5 (lit "2025-01-01 10:00"))
             eq_refl eq_refl eq_refl eq_refl).
  - reflexivity.
  - vm_compute. discriminate.
Defined.

(** X10. A user with no row in an event who joins it and then leaves it puts
    the database back exactly as it was. *)
Theorem join_then_leave_restores
    py_int con upd_join upd_leave q_join q_leave id_str event_id ev now1 now2 :
  upd_callback_query upd_join = Some q_join ->
  q_data q_join = Some (lit "join:" ++ id_str) ->
  upd_callback_query upd_leave = Some q_leave ->
  q_data q_leave = Some (lit "leave:" ++ id_str) ->
  u_id (q_from_user q_leave) = u_id (q_from_user q_join) ->
  py_int id_str = Some event_id ->
  select_event con event_id = Some ev ->
  entries con event_id (u_id (q_from_user q_join)) = [] ->
  fst (on_button py_int (fst (on_button py_int con upd_join now1))
         upd_leave now2) = con.
Proof.
  intros Hqj Hdj Hql Hdl Hu Hi Hev Habs.
  assert (Hev1 : select_event (fst (on_button py_int con upd_join now1))
                   event_id = Some ev).
  { rewrite <- Hev. apply select_event_same_events, on_button_events. }
  rewrite (on_button_leave _ _ _ _ _ _ _ _ Hql Hdl Hi Hev1). cbv zeta.
  simpl fst. rewrite Hu.
  rewrite (on_button_join _ _ _ _ _ _ _ _ Hqj Hdj Hi Hev). cbv zeta.
  simpl fst. unfold insert_attendee. unfold pk at 2. simpl at_event_id.
  simpl at_user_id. rewrite (entries_none_existsb _ _ _ Habs).
  unfold delete_attendee. simpl. rewrite filter_app. simpl.
  unfold pk at 2. simpl. rewrite pk_eqb_refl. simpl. rewrite app_nil_r.
  rewrite filter_all; [apply db_eta|]. intros r Hr.
  now rewrite (entries_none_not_pk _ _ _ _ Habs Hr).
Qed.

Lemma join_then_leave_restores_witness :
  let ana := mk_user 5 (Some (lit "ana")) (lit "Ana") in
  let press := fun (d : string) u =>
    mk_update None (Some (mk_query (Some (lit d)) u)) in
  let con :=
    run int_of_digits
      [ CreateEvent
          (mk_update (Some (mk_message (Some (lit "/partida Mesa 1")) 7 ana))
             None)
          (lit "2025-01-01 10:00") ] in
  fst (on_button int_of_digits
         (fst (on_button int_of_digits con (press "join:1"%string ana)
                 (lit "2025-01-01 10:01")))
         (press "leave:1"%string ana) (lit "2025-01-01 10:02")) = con.
Proof.
  intros ana press con.
  apply (join_then_leave_restores int_of_digits con
           (press "join:1"%string ana) (press "leave:1"%string ana)
           (mk_query (Some (lit "join:1")) ana)
           (mk_query (Some (lit "leave:1")) ana) (lit "1") 1%Z
           (mk_event 1 7 None (lit "Mesa 1") 5 (lit "2025-01-01 10:00")));
    reflexivity.
Defined.

(** ** What a button press never does *)

(** X11. A payload whose action word is neither join nor leave, on an existing
    event, changes nothing in the database; the message is still edited to
    the event's rendered text. *)
Theorem unknown_action_only_rerenders
    py_int con upd now query action id_str event_id ev :
  upd_callback_query upd = Some query ->
  q_data query = Some (action ++ COLON :: id_str) ->
  contains COLON action = false ->
  action <> lit "join" -> action <> lit "leave" ->
  py_int id_str = Some event_id ->
  select_event con event_id = Some ev ->
  on_button py_int con upd now
  = (con, [answer;
           edit_message_text (render_event_text ev con) (Some HTML)
             (Some (event_keyboard event_id))]).
Proof.
  intros Hq Hd Hc Hj Hl Hi Hev.
  rewrite (on_button_parsed _ _ _ _ _ _ _ _ Hq Hd Hc Hi), Hev. cbv zeta.
  destruct (Str.eqb action (lit "join")) eqn:Ej;
    [apply str_eqb_eq in Ej; contradiction|].
  destruct (Str.eqb action (lit "leave")) eqn:El;
    [apply str_eqb_eq in El; contradiction|].
  now rewrite (render_event_by_id_found _ _ _ Hev).
Qed.

Lemma unknown_action_only_rerenders_witness :
  let ana := mk_user 5 (Some (lit "ana")) (lit "Ana") in
  let con :=
    run int_of_digits
      [ CreateEvent
          (mk_update (Some (mk_message (Some (lit "/partida Mesa 1")) 7 ana))
             None)
          (lit "2025-01-01 10:00") ] in
  let upd := mk_update None (Some (mk_query (Some (lit "Join:1")) ana)) in
  fst (on_button int_of_digits con upd (lit "2025-01-01 10:05")) = con.
Proof.
  intros ana con upd.
  rewrite (unknown_action_only_rerenders int_of_digits con upd
             (lit "2025-01-01 10:05") (mk_query (Some (lit "Join:1")) ana)
             (lit "Join") (lit "1") 1%Z
             (mk_event 1 7 None (lit "Mesa 1") 5 (lit "2025-01-01 10:00"))
             eq_refl eq_refl eq_refl).
  - reflexivity.
  - vm_compute. discriminate.
  - vm_compute. discriminate.
  - reflexivity.
  - reflexivity.
Defined.

(** X12. An update without a callback query is dropped in silence.  With one,
    the first transport call is always [query.answer()], it is made once,
    and at most one call follows it, which is an edit of the message. *)
Theorem every_query_answered_first py_int con upd now :
  match upd_callback_query upd with
  | None => on_button py_int con upd now = (con, [])
  | Some _ =>
      exists rest,
        snd (on_button py_int con upd now) = answer :: rest
        /\ (rest = []
            \/ exists text mode markup,
                 rest = [edit_message_text text mode markup])
  end.
Proof.
  unfold on_button. destruct (upd_callback_query upd) as [query|];
    [|reflexivity].
  destruct (negb _); [exists []; simpl; auto|].
  destruct (split1 _ _) as [action id_str].
  destruct (py_int id_str) as [event_id|]; [|exists []; simpl; auto].
  destruct (select_event con event_id) as [ev|];
    eexists; simpl; split; try reflexivity; right; eauto.
Qed.

(** X13. A button press never creates, removes or alters an event, never moves
    the AUTOINCREMENT counter, adds at most one attendee row and, on a
    table that respects the primary key, removes at most one. *)
Theorem on_button_never_touches_events py_int con upd now :
  let con' := fst (on_button py_int con upd now) in
  events con' = events con
  /\ events_seq con' = events_seq con
  /\ (List.length (attendees con') <= S (List.length (attendees con)))%nat
  /\ (pk_unique con ->
      (List.length (attendees con) <= S (List.length (attendees con')))%nat).
Proof.
  intros con'. subst con'. split; [apply on_button_events|].
  split; [apply on_button_events_seq|].
  destruct (on_button_cases py_int con upd now)
    as [[E _]|[query [event_id [ev [con' [_ [_ [E Hc]]]]]]]].
  - rewrite E. split; [|intros _]; lia.
  - rewrite E. simpl fst. destruct Hc as [->|[Hi| ->]].
    + split; [|intros _]; lia.
    + apply insert_attendee_ok in Hi as [-> _]. simpl attendees.
      rewrite length_app. simpl. split; [|intros _]; lia.
    + simpl attendees. split.
      * pose proof (filter_length_le
                      (fun r => negb (pk_eqb (pk r)
                                        (event_id, u_id (q_from_user query))))
                      (attendees con)). lia.
      * intros Hpk.
        pose proof (filter_length
                      (fun r => pk_eqb (pk r)
                                  (event_id, u_id (q_from_user query)))
                      (attendees con)) as Hlen.
        pose proof (entries_at_most_one con event_id
                      (u_id (q_from_user query)) Hpk) as Hone.
        unfold entries in Hone. lia.
Qed.

Lemma render_event_by_id_of_rows con con' event_id :
  events con' = events con ->
  event_rows con' event_id = event_rows con event_id ->
  render_event_by_id con' event_id = render_event_by_id con event_id.
Proof.
  intros He Hr. unfold render_event_by_id.
  rewrite (select_event_same_events _ _ _ He).
  destruct (select_event con event_id) as [ev|] eqn:Hev; [|reflexivity].
  apply select_event_some in Hev as [_ Hid]. unfold render_event_text.
  rewrite Hid. now rewrite (select_attendees_of_rows _ _ _ _ Hr).
Qed.

(** X14. A button press on one event leaves every other event as it was: its
    rows, its roster and its rendered text are the same before and
    after. *)
Theorem button_changes_one_event_only
    py_int con upd now query action id_str event_id other_id :
  upd_callback_query upd = Some query ->
  q_data query = Some (action ++ COLON :: id_str) ->
  contains COLON action = false ->
  py_int id_str = Some event_id ->
  other_id <> event_id ->
  let con' := fst (on_button py_int con upd now) in
  event_rows con' other_id = event_rows con other_id
  /\ select_attendees con' other_id = select_attendees con other_id
  /\ render_event_by_id con' other_id = render_event_by_id con other_id.
Proof.
  intros Hq Hd Hc Hi Hne con'.
  assert (Hr : event_rows con' other_id = event_rows con other_id).
  { subst con'. rewrite (on_button_parsed _ _ _ _ _ _ _ _ Hq Hd Hc Hi).
    destruct (select_event con event_id) as [ev|]; [|reflexivity].
    cbv zeta. simpl fst.
    destruct (Str.eqb action (lit "join")).
    - destruct (insert_attendee con _) as [c|] eqn:E; [|reflexivity].
      now apply (event_rows_other_insert _ _ _ _ E).
    - destruct (Str.eqb action (lit "leave")); [|reflexivity].
      now apply event_rows_other_delete. }
  repeat split.
  - exact Hr.
  - now apply select_attendees_of_rows.
  - apply render_event_by_id_of_rows; [|exact Hr]. apply on_button_events.
Qed.

Lemma button_changes_one_event_only_witness :
  let ana := mk_user 5 (Some (lit "ana")) (lit "Ana") in
  let create := fun (t : string) =>
    CreateEvent (mk_update (Some (mk_message (Some (lit t)) 7 ana)) None)
      (lit "2025-01-01 10:00") in
  let press := fun (d : string) =>
    mk_update None (Some (mk_query (Some (lit d)) ana)) in
  let con :=
    run int_of_digits
      [ create "/partida Mesa 1"%string; create "/partida Mesa 2"%string;
        Button (press "join:1"%string) (lit "2025-01-01 10:01") ] in
  let con' := fst (on_button int_of_digits con (press "join:2"%string)
                     (lit "2025-01-01 10:02")) in
  render_event_by_id con' 1 = render_event_by_id con 1.
Proof.
  intros ana create press con con'.
  apply (button_changes_one_event_only int_of_digits con
           (press "join:2"%string) (lit "2025-01-01 10:02")
           (mk_query (Some (lit "join:2")) ana) (lit "join") (lit "2")
           2%Z 1%Z eq_refl eq_refl eq_refl eq_refl).
  discriminate.
Defined.

(** ** Storing the message id *)

Lemma find_map_same {A : Type} (p : A -> bool) (f : A -> A) l :
  (forall x, p (f x) = p x) ->
  find p (List.map f l) = option_map f (find p l).
Proof.
  intros H. induction l as [|x l IH]; simpl; [reflexivity|].
  rewrite H. destruct (p x); [reflexivity | exact IH].
Qed.

(** X15. The second half of [create_event].  If the event is stored, it gets
    the message id and keeps everything else; other events are returned by
    a lookup as before; if it is not stored the database does not change;
    doing it twice is doing it once; and no rendered text, of this event or
    of any other, is affected. *)
Theorem message_id_backfill con event_id sent_message_id :
  let con' := create_event_sent con event_id sent_message_id in
  match select_event con event_id with
  | Some ev =>
      select_event con' event_id
      = Some (mk_event (ev_id ev) (ev_chat_id ev) (Some sent_message_id)
                (ev_description ev) (ev_creator_id ev) (ev_created_at ev))
  | None => con' = con
  end
  /\ (forall other_id,
        other_id <> event_id ->
        select_event con' other_id = select_event con other_id)
  /\ create_event_sent con' event_id sent_message_id = con'
  /\ attendees con' = attendees con
  /\ (forall any_id,
        render_event_by_id con' any_id = render_event_by_id con any_id).
Proof.
  intros con'.
  set (f := fun e =>
              if Z.eqb (ev_id e) event_id
              then mk_event (ev_id e) (ev_chat_id e) (Some sent_message_id)
                     (ev_description e) (ev_creator_id e) (ev_created_at e)
              else e).
  assert (Hid : forall e, ev_id (f e) = ev_id e).
  { intros e. unfold f. now destruct (Z.eqb (ev_id e) event_id). }
  assert (Hsel : forall i,
             select_event con' i = option_map f (select_event con i)).
  { intros i. unfold select_event. simpl events. fold f.
    apply find_map_same. intros e. now rewrite Hid. }
  repeat split.
  - rewrite Hsel. destruct (select_event con event_id) as [ev|] eqn:E.
    + simpl. unfold f. apply select_event_some in E as [_ E].
      apply Z.eqb_eq in E. now rewrite E.
    + subst con'. unfold create_event_sent, update_message_id. fold f.
      rewrite (map_ext_in f (fun e => e)), map_id; [apply db_eta|].
      intros e He. unfold select_event in E.
      apply (find_none _ _ E) in He. unfold f. now rewrite He.
  - intros other_id Hne. rewrite Hsel.
    destruct (select_event con other_id) as [ev|] eqn:E; [|reflexivity].
    simpl. unfold f. apply select_event_some in E as [_ E].
    destruct (Z.eqb_spec (ev_id ev) event_id); [congruence | reflexivity].
  - subst con'. unfold create_event_sent, update_message_id. simpl.
    fold f. f_equal. rewrite map_map. apply map_ext. intros e.
    unfold f at 1. rewrite Hid. unfold f.
    now destruct (Z.eqb (ev_id e) event_id).
  - intros any_id. unfold render_event_by_id. rewrite Hsel.
    destruct (select_event con any_id) as [ev|]; [|reflexivity].
    simpl. unfold render_event_text. rewrite Hid.
    rewrite (select_attendees_of_rows con con' (ev_id ev) (ev_id ev))
      by reflexivity.
    f_equal. unfold f. now destruct (Z.eqb (ev_id ev) event_id).
Qed.

(** ** Rosters whose times all differ *)

Lemma joined_lt_irrefl a : ~ joined_lt a a.
Proof. unfold joined_lt, Str.ltb. now rewrite compare_refl. Qed.

Lemma joined_lt_asym a b : joined_lt a b -> joined_lt b a -> False.
Proof.
  unfold joined_lt, Str.ltb.
  rewrite (compare_antisym (at_joined_at a) (at_joined_at b)).
  destruct (Str.compare _ _); simpl; discriminate.
Qed.

Lemma joined_lt_NoDup l :
  StronglySorted joined_lt l -> NoDup (List.map at_joined_at l).
Proof.
  induction 1 as [|x l Hs IH Hx]; simpl; constructor; [|exact IH].
  intros Hin. apply in_map_iff in Hin as [y [E Hy]].
  rewrite Forall_forall in Hx. specialize (Hx y Hy).
  unfold joined_lt, Str.ltb in Hx. rewrite E, compare_refl in Hx.
  discriminate.
Qed.

(** X16. When the rows of an event were inserted with strictly increasing
    [joined_at], the roster lists them in the order of insertion: the order
    of joining. *)
Theorem roster_follows_join_order con event_id :
  StronglySorted joined_lt (event_rows con event_id) ->
  select_attendees con event_id = event_rows con event_id.
Proof.
  intros Hs.
  apply (StronglySorted_perm_unique joined_lt joined_lt_irrefl joined_lt_asym).
  - apply (StronglySorted_NoDup_strict at_joined_at joined_le).
    + intros a b Hle Hne. unfold joined_le, Str.leb in Hle.
      unfold joined_lt, Str.ltb.
      destruct (Str.compare _ _) eqn:E; try discriminate; [|reflexivity].
      apply compare_eq in E. contradiction.
    + eapply Permutation_NoDup.
      * apply Permutation_map, select_attendees_perm.
      * now apply joined_lt_NoDup.
    + apply select_attendees_sorted.
  - exact Hs.
  - apply Permutation_sym, select_attendees_perm.
Qed.

Lemma roster_follows_join_order_witness :
  let ana := mk_user 5 (Some (lit "ana")) (lit "Ana") in
  let luis := mk_user 3 None (lit "Luis") in
  let press := fun (d : string) u =>
    mk_update None (Some (mk_query (Some (lit d)) u)) in
  let con :=
    run int_of_digits
      [ CreateEvent
          (mk_update (Some (mk_message (Some (lit "/partida Mesa 1")) 7 ana))
             None)
          (lit "2025-01-01 10:00");
        Button (press "join:1"%string ana) (lit "2025-01-01 10:01");
        Button (press "join:1"%string luis) (lit "2025-01-01 10:02") ] in
  List.map at_user_id (select_attendees con 1) = [5%Z; 3%Z].
Proof.
  intros ana luis press con.
  rewrite (roster_follows_join_order con 1).
  - reflexivity.
  - vm_compute. repeat constructor.
Defined.

(** ** The buttons the bot sends *)

Lemma int_of_digits_read c s :
  int_of_digits (c :: s)
  = if c =? 0x2D then
      match s with
      | [] => None
      | _ => option_map Z.opp (read_digits 0%Z s)
      end
    else read_digits 0%Z (c :: s).
Proof. reflexivity. Qed.

Ltac read_digit :=
  cbn [NilEmpty.string_of_uint]; unfold lit;
  cbn [list_ascii_of_string List.map read_digits];
  match goal with
  | |- (if ?b then _ else None) = _ => change b with true; cbv iota
  end;
  match goal with
  | |- context [Z.of_N ?t] =>
      let v := eval vm_compute in (Z.of_N t) in change (Z.of_N t) with v
  end.

Lemma read_digits_acc d :
  forall acc,
    read_digits (Zpos acc) (lit (NilEmpty.string_of_uint d))
    = Some (Zpos (Pos.of_uint_acc d acc)).
Proof.
  induction d as [|d IH|d IH|d IH|d IH|d IH|d IH|d IH|d IH|d IH|d IH];
    intros acc; [reflexivity| | | | | | | | | |];
    cbn [Pos.of_uint_acc]; rewrite <- IH; read_digit; unfold lit;
    f_equal; lia.
Qed.

Lemma read_digits_uint d :
  read_digits 0%Z (lit (NilEmpty.string_of_uint d))
  = Some (Z.of_N (Pos.of_uint d)).
Proof.
  induction d as [|d IH|d IH|d IH|d IH|d IH|d IH|d IH|d IH|d IH|d IH];
    [reflexivity | | | | | | | | | |];
    cbn [Pos.of_uint Z.of_N];
    [rewrite <- IH | rewrite <- read_digits_acc ..];
    read_digit; unfold lit; f_equal.
Qed.

Lemma lit_uint_head d :
  d <> Decimal.Nil ->
  exists c s,
    lit (NilEmpty.string_of_uint d) = c :: s /\ (c =? 0x2D) = false.
Proof.
  destruct d; [congruence| | | | | | | | | |]; intros _;
    eexists; eexists; (split; [reflexivity|reflexivity]).
Qed.

Lemma int_of_digits_of_int n : int_of_digits (of_int n) = Some n.
Proof.
  unfold of_int. destruct n as [|p|p].
  - reflexivity.
  - cbn [Z.to_int NilZero.string_of_int NilZero.string_of_uint].
    pose proof (DecimalPos.Unsigned.to_uint_nonnil p) as Hnn.
    assert (E : NilZero.string_of_uint (Pos.to_uint p)
                = NilEmpty.string_of_uint (Pos.to_uint p))
      by (destruct (Pos.to_uint p); [congruence | reflexivity ..]).
    unfold NilZero.string_of_int. rewrite E.
    destruct (lit_uint_head _ Hnn) as [c [s [Hcs Hc]]].
    pose proof (read_digits_uint (Pos.to_uint p)) as Hr.
    rewrite Hcs in *. rewrite int_of_digits_read, Hc, Hr.
    now rewrite DecimalPos.Unsigned.of_to.
  - cbn [Z.to_int NilZero.string_of_int].
    pose proof (DecimalPos.Unsigned.to_uint_nonnil p) as Hnn.
    assert (E : NilZero.string_of_uint (Pos.to_uint p)
                = NilEmpty.string_of_uint (Pos.to_uint p))
      by (destruct (Pos.to_uint p); [congruence | reflexivity ..]).
    rewrite E.
    destruct (lit_uint_head _ Hnn) as [c [s [Hcs Hc]]].
    pose proof (read_digits_uint (Pos.to_uint p)) as Hr.
    change (lit (String "-" (NilEmpty.string_of_uint (Pos.to_uint p))))
      with (0x2D :: lit (NilEmpty.string_of_uint (Pos.to_uint p))).
    rewrite int_of_digits_read. rewrite Hcs in *.
    change (0x2D =? 0x2D) with true. cbv iota. rewrite Hr.
    now rewrite DecimalPos.Unsigned.of_to.
Qed.

Lemma of_int_inj a b : of_int a = of_int b -> a = b.
Proof.
  intros E. pose proof (int_of_digits_of_int a) as Ha.
  rewrite E, int_of_digits_of_int in Ha. congruence.
Qed.

(** X17. The callback data of the two buttons of an event's keyboard contain a
    colon, split at it into the action word, join or leave, and the decimal
    numeral of the event id, and that numeral reads back as the id; two
    different events never get the same keyboard. *)
Theorem keyboard_payloads_read_back event_id :
  List.map
    (fun b : button =>
       (contains COLON (snd b),
        fst (split1 COLON (snd b)),
        int_of_digits (snd (split1 COLON (snd b)))))
    (List.concat (event_keyboard event_id))
  = [ (true, lit "join", Some event_id); (true, lit "leave", Some event_id) ]
  /\ (forall other_id,
        event_keyboard other_id = event_keyboard event_id ->
        other_id = event_id).
Proof.
  split.
  - unfold event_keyboard. cbn [List.concat app List.map snd].
    change (lit "join:" ++ of_int event_id)
      with (lit "join" ++ COLON :: of_int event_id).
    change (lit "leave:" ++ of_int event_id)
      with (lit "leave" ++ COLON :: of_int event_id).
    rewrite !contains_app_sep, !split1_first by reflexivity.
    cbn [fst snd]. now rewrite int_of_digits_of_int.
  - unfold event_keyboard. intros other_id E. inversion E as [[E1 E2]].
    now apply of_int_inj.
Qed.

(** X18. Pressing either button of the keyboard that the bot attached to an
    existing event reaches that event, for any [int] that reads the decimal
    numeral of the id back: the message is edited to the event's rendered
    text with the same keyboard; after the join button the presser has a
    row in the event, after the leave button none. *)
Theorem own_buttons_work py_int con event_id ev user now label data :
  py_int (of_int event_id) = Some event_id ->
  select_event con event_id = Some ev ->
  In (label, data) (List.concat (event_keyboard event_id)) ->
  let r :=
    on_button py_int con
      (mk_update None (Some (mk_query (Some data) user))) now in
  snd r = [answer;
           edit_message_text (render_event_text ev (fst r)) (Some HTML)
             (Some (event_keyboard event_id))]
  /\ ((data = lit "join:" ++ of_int event_id
       /\ entries (fst r) event_id (u_id user) <> [])
      \/ (data = lit "leave:" ++ of_int event_id
          /\ entries (fst r) event_id (u_id user) = [])).
Proof.
  intros Hint Hev Hin r. unfold event_keyboard in Hin. simpl in Hin.
  destruct Hin as [E|[E|[]]]; inversion E; subst label data; clear E.
  - assert (Er : r = on_button py_int con
                       (mk_update None
                          (Some (mk_query
                                   (Some (lit "join:" ++ of_int event_id))
                                   user))) now) by reflexivity.
    rewrite (on_button_join py_int con
               (mk_update None
                  (Some (mk_query (Some (lit "join:" ++ of_int event_id))
                           user))) now
               (mk_query (Some (lit "join:" ++ of_int event_id)) user)
               (of_int event_id) event_id ev eq_refl eq_refl Hint Hev) in Er.
    clearbody r. subst r. cbv zeta. simpl fst. simpl snd.
    split; [reflexivity|]. left. split; [reflexivity|].
    unfold insert_attendee. unfold pk at 2. simpl at_event_id.
    simpl at_user_id.
    destruct (existsb _ _) eqn:Ex.
    + apply existsb_pk_entries in Ex. intros E0. rewrite E0 in Ex.
      simpl in Ex. lia.
    + unfold entries. simpl attendees. rewrite filter_app. simpl.
      unfold pk at 2. simpl. rewrite pk_eqb_refl.
      intros E0. apply app_eq_nil in E0 as [_ E0]. discriminate.
  - assert (Er : r = on_button py_int con
                       (mk_update None
                          (Some (mk_query
                                   (Some (lit "leave:" ++ of_int event_id))
                                   user))) now) by reflexivity.
    rewrite (on_button_leave py_int con
               (mk_update None
                  (Some (mk_query (Some (lit "leave:" ++ of_int event_id))
                           user))) now
               (mk_query (Some (lit "leave:" ++ of_int event_id)) user)
               (of_int event_id) event_id ev eq_refl eq_refl Hint Hev) in Er.
    clearbody r. subst r. cbv zeta. simpl fst. simpl snd.
    split; [reflexivity|]. right. split; [reflexivity|].
    unfold entries. simpl attendees. apply filter_pk_deleted.
Qed.

Lemma own_buttons_work_witness :
  let ana := mk_user 5 (Some (lit "ana")) (lit "Ana") in
  let con :=
    run int_of_digits
      [ CreateEvent
          (mk_update (Some (mk_message (Some (lit "/partida Mesa 1")) 7 ana))
             None)
          (lit "2025-01-01 10:00") ] in
  let r :=
    on_button int_of_digits con
      (mk_update None (Some (mk_query (Some (lit "join:1")) ana)))
      (lit "2025-01-01 10:05") in
  snd r = [answer;
           edit_message_text
             (render_event_text
                (mk_event 1 7 None (lit "Mesa 1") 5 (lit "2025-01-01 10:00"))
                (fst r))
             (Some HTML) (Some (event_keyboard 1))].
Proof.
  intros ana con r.
  apply (own_buttons_work int_of_digits con 1%Z
           (mk_event 1 7 None (lit "Mesa 1") 5 (lit "2025-01-01 10:00"))
           ana (lit "2025-01-01 10:05") (0x2705 :: lit " Apuntarme")
           (lit "join:1")).
  - reflexivity.
  - reflexivity.
  - left. reflexivity.
Defined.

(** ** More about escaping *)

Lemma html_unescape_enough s :
  forall fuel, (List.length s <= fuel)%nat ->
               html_unescape fuel (html_escape s) = s.
Proof.
  rewrite html_escape_flat_map.
  induction s as [|c s IH]; intros fuel Hf.
  - destruct fuel; reflexivity.
  - destruct fuel as [|fuel]; [simpl in Hf; lia|].
    cbn [flat_map]. rewrite html_unescape_escape_char, IH; [reflexivity|].
    simpl in Hf. lia.
Qed.

(** X19. Escaping loses nothing and adds nothing where nothing is needed: two
    different texts never escape to the same text, a text without any of
    the five special characters is embedded as it is, and escaping two
    texts put together is putting their escapes together. *)
Theorem html_escape_faithful a b :
  (html_escape a = html_escape b -> a = b)
  /\ (forallb plain_char a = true -> html_escape a = a)
  /\ html_escape (a ++ b) = html_escape a ++ html_escape b.
Proof.
  repeat split.
  - intros E.
    rewrite <- (html_unescape_enough a (Nat.max (List.length a) (List.length b)))
      by lia.
    rewrite E. apply html_unescape_enough. lia.
  - rewrite html_escape_flat_map. induction a as [|c a IH]; [reflexivity|].
    simpl. intros H. apply andb_true_iff in H as [Hc Ha].
    rewrite (IH Ha). unfold plain_char in Hc. apply negb_true_iff in Hc.
    repeat (apply orb_false_iff in Hc as [Hc ?]).
    unfold escape_char.
    repeat match goal with H : (_ =? _) = false |- _ => rewrite H; clear H end.
    reflexivity.
  - rewrite !html_escape_flat_map. apply flat_map_app.
Qed.
